(** * MediaDL download form: the logic of [src/App.tsx]

    The component of [src/App.tsx] owns four signals ([url], [status],
    [result], [errorMsg]), classifies the typed text against the fixed
    [PLATFORMS] table, guards a submission by the scheme of the parsed URL,
    issues one [POST] to the download API and stores what the response
    brings.  This file embeds that logic and proves the properties the
    specification states about it.

    Conventions of the embedding.
    - A JavaScript string is a sequence of code units; the model writes it as
      a Rocq [string] whose characters are the code units below 256.
    - The platform the page runs on (the [URL] constructor, the build-time
      environment, the texts of the engine's own [TypeError]s) is a record
      the definitions take as a parameter.
    - A handler is a computation in a small state monad over the page's
      world: the four signals and the requests the network has in flight.
    - What the browser does with the rendered form (which controls accept an
      event) is read off the markup: the [disabled] attributes and the
      [Show] conditions. *)

From Stdlib Require Import String Ascii List Bool NArith Lia DecimalString.
Import ListNotations.
Set Warnings "-register-all".
Local Open Scope list_scope.
Local Open Scope string_scope.

(** ** Strings *)

Module Str.

(** The double quote, as a one-character string. *)
Definition dquote : string := String "034"%char EmptyString.

(** [WhiteSpace] and [LineTerminator] code units below 256: TAB, LF, VT, FF,
    CR, SPACE and NBSP.  These are what [String.prototype.trim] removes. *)
Definition is_white_space (c : ascii) : bool :=
  existsb (N.eqb (N_of_ascii c)) [9; 10; 11; 12; 13; 32; 160]%N.

Fixpoint trimStart (s : string) : string :=
  match s with
  | EmptyString => EmptyString
  | String c s' => if is_white_space c then trimStart s' else s
  end.

Fixpoint trimEnd (s : string) : string :=
  match s with
  | EmptyString => EmptyString
  | String c s' =>
      match trimEnd s' with
      | EmptyString => if is_white_space c then EmptyString else String c EmptyString
      | t => String c t
      end
  end.

(** [s.trim()] *)
Definition trim (s : string) : string := trimEnd (trimStart s).

(** A JavaScript string is falsy exactly when it is empty. *)
Definition truthy (s : string) : bool :=
  match s with EmptyString => false | String _ _ => true end.

(** ASCII upper-casing of one code unit.  Under the [i] flag (without [u])
    a code unit is canonicalised by [toUpperCase], except that a code unit
    from 128 on never canonicalises to one below 128; so against the ASCII
    characters of this program's patterns, comparing the ASCII upper-case
    forms is the whole of the case-insensitive comparison. *)
Definition canonicalize (c : ascii) : ascii :=
  let n := N_of_ascii c in
  if ((97 <=? n) && (n <=? 122))%N then ascii_of_N (n - 32) else c.

Fixpoint upper (s : string) : string :=
  match s with
  | EmptyString => EmptyString
  | String c s' => String (canonicalize c) (upper s')
  end.

(** [w] occurs in [s] somewhere, in any letter case. *)
Definition occurs_ci (w s : string) : Prop :=
  exists pre mid post, s = pre ++ mid ++ post /\ upper mid = upper w.

(** [s] starts with [w], in any letter case. *)
Definition starts_ci (w s : string) : Prop :=
  exists mid post, s = mid ++ post /\ upper mid = upper w.

(** The decimal text of a non-negative integer, as a template literal
    prints it. *)
Definition decimal (n : N) : string := NilZero.string_of_uint (N.to_uint n).

(** [s.replace(/\/$/, '')]: one trailing slash is dropped. *)
Fixpoint strip_trailing_slash (s : string) : string :=
  match s with
  | EmptyString => EmptyString
  | String c EmptyString => if Ascii.eqb c "/"%char then EmptyString else s
  | String c s' => String c (strip_trailing_slash s')
  end.

End Str.

(** ** Regular expressions

    The fragment of the pattern language the [PLATFORMS] table uses, all
    under the [i] flag: characters, sequence, alternation, [?] and the
    assertion [^].  Matching follows the continuation-passing matchers of the
    language definition: a matcher is given the rest of the input, whether
    that rest starts at index 0, and what must match afterwards. *)

Module Regex.

Inductive t : Type :=
| Eps
| Chr (c : ascii)
| Seq (r1 r2 : t)
| Alt (r1 r2 : t)
| Opt (r : t)
| Bol.

(** The characters of [w] in sequence. *)
Fixpoint lit (w : string) : t :=
  match w with
  | EmptyString => Eps
  | String c w' => Seq (Chr c) (lit w')
  end.

Fixpoint matcher (r : t) (at0 : bool) (s : string)
         (k : bool -> string -> bool) : bool :=
  match r with
  | Eps => k at0 s
  | Chr c =>
      match s with
      | EmptyString => false
      | String a s' =>
          if Ascii.eqb (Str.canonicalize a) (Str.canonicalize c)
          then k false s' else false
      end
  | Seq r1 r2 => matcher r1 at0 s (fun b s' => matcher r2 b s' k)
  | Alt r1 r2 => matcher r1 at0 s k || matcher r2 at0 s k
  | Opt r1 => matcher r1 at0 s k || k at0 s
  | Bol => if at0 then k at0 s else false
  end.

(** Does [r] match starting exactly here? *)
Definition matches_here (r : t) (at0 : bool) (s : string) : bool :=
  matcher r at0 s (fun _ _ => true).

(** The match is tried at each index in turn, the end of the input
    included. *)
Fixpoint search (r : t) (at0 : bool) (s : string) : bool :=
  matches_here r at0 s
  || match s with
     | EmptyString => false
     | String _ s' => search r false s'
     end.

(** [r.test(s)] for a pattern without the [g] and [y] flags. *)
Definition test (r : t) (s : string) : bool := search r true s.

End Regex.

(** ** The platform table and [detectPlatform] *)

Record Platform : Type := { name : string; pattern : Regex.t }.

Definition PLATFORMS : list Platform :=
  [ {| name := "YouTube";
       pattern := Regex.Alt (Regex.lit "youtube.com") (Regex.lit "youtu.be") |};
    {| name := "Instagram"; pattern := Regex.lit "instagram.com" |};
    {| name := "TikTok"; pattern := Regex.lit "tiktok.com" |};
    {| name := "Facebook";
       pattern := Regex.Alt (Regex.lit "facebook.com") (Regex.lit "fb.watch") |};
    {| name := "Generic";
       pattern := Regex.Seq Regex.Bol
                    (Regex.Seq (Regex.lit "http")
                       (Regex.Seq (Regex.Opt (Regex.Chr "s"%char))
                          (Regex.lit "://"))) |} ].

(** [PLATFORMS.find(p => p.pattern.test(url))], then [matched?.name ?? null]. *)
Definition detectPlatform (url : string) : option string :=
  option_map name (find (fun p => Regex.test (pattern p) url) PLATFORMS).

(** ** Values that cross the network

    What [res.json()] yields is any JSON value.  A number is kept as the text
    that converting it to a string gives, which is all this program can
    observe of it (zero prints as [0]). *)

Inductive JSON : Type :=
| JNull
| JBool (b : bool)
| JNum (text : string)
| JStr (s : string)
| JArr (items : list JSON)
| JObj (members : list (string * JSON)).

(** What a [throw] or a rejected promise carries, as line 100 of the source
    tells the cases apart: an instance of [Error] with its [message], or
    anything else. *)
Inductive Thrown : Type :=
| Err (message : string)
| NotAnError.

(** The outcome of an expression that may throw. *)
Inductive Completion (A : Type) : Type :=
| Normal (a : A)
| Throw (e : Thrown).
Arguments Normal {A} a.
Arguments Throw {A} e.

Definition cbind {A B : Type} (c : Completion A) (k : A -> Completion B)
  : Completion B :=
  match c with
  | Normal a => k a
  | Throw e => Throw e
  end.

Declare Scope completion_scope.
Delimit Scope completion_scope with completion.
Notation "x <-? c ;; k" := (cbind c (fun x => k))
  (at level 61, c at next level, right associativity) : completion_scope.

(** The page's host: what the source takes from the browser and the build. *)
Record URL : Type := { protocol : string }.

Record Runtime : Type := {
  (** [import.meta.env.VITE_API_BASE] *)
  VITE_API_BASE : option string;
  (** [new URL(s)]; [None] when the constructor throws *)
  new_URL : string -> option URL;
  (** the message of the [TypeError] for reading a property of [null] *)
  null_property_message : string;
  (** the message of the [TypeError] for an object with no primitive value *)
  not_primitive_message : string;
  (** the renderer putting an array or an object in place as the child of an
      element: done, or what it throws *)
  insert_child : JSON -> Completion unit
}.

Module Json.

Fixpoint assoc (k : string) (ms : list (string * JSON)) : option JSON :=
  match ms with
  | [] => None
  | (k', v) :: ms' => if String.eqb k k' then Some v else assoc k ms'
  end.

(** [v.k] for a key that no built-in prototype defines, on a value other
    than [null]: the own property of an object, [undefined] (here [None])
    on everything else. *)
Definition own (v : JSON) (k : string) : option JSON :=
  match v with
  | JObj ms => assoc k ms
  | _ => None
  end.

(** [v.k] in full: reading a property of [null] throws. *)
Definition property (R : Runtime) (v : JSON) (k : string)
  : Completion (option JSON) :=
  match v with
  | JNull => Throw (Err (null_property_message R))
  | _ => Normal (own v k)
  end.

Definition truthy (v : JSON) : bool :=
  match v with
  | JNull => false
  | JBool b => b
  | JNum text => negb (String.eqb text "0")
  | JStr s => Str.truthy s
  | JArr _ | JObj _ => true
  end.

(** [ToString].  An array prints its elements joined by commas, [null]
    elements as nothing; an object prints as [[object Object]] unless an
    own [toString] member (never callable, coming from JSON) hides the
    inherited method, in which case no primitive value is found. *)
Fixpoint ToString (R : Runtime) (v : JSON) : Completion string :=
  match v with
  | JNull => Normal "null"
  | JBool true => Normal "true"
  | JBool false => Normal "false"
  | JNum text => Normal text
  | JStr s => Normal s
  | JArr items =>
      let element (x : JSON) : Completion string :=
        match x with
        | JNull => Normal EmptyString
        | _ => ToString R x
        end in
      (fix join (l : list JSON) : Completion string :=
         match l with
         | [] => Normal EmptyString
         | [x] => element x
         | x :: rest =>
             cbind (element x) (fun a =>
             cbind (join rest) (fun b => Normal (a ++ "," ++ b)))
         end) items
  | JObj ms =>
      match assoc "toString" ms with
      | Some _ => Throw (Err (not_primitive_message R))
      | None => Normal "[object Object]"
      end
  end.

(** A substitution [${x}] of a template literal; [None] is [undefined]. *)
Definition template (R : Runtime) (x : option JSON) : Completion string :=
  match x with
  | None => Normal "undefined"
  | Some v => ToString R v
  end.

End Json.

Module Response.

Record t : Type := {
  status : N;
  (** what [res.json()] settles with *)
  json : Completion JSON
}.

(** [res.ok]: the status is in the range 200 to 299. *)
Definition ok (res : t) : bool :=
  ((200 <=? status res) && (status res <=? 299))%N.

End Response.

(** How the promise of [fetch] settles. *)
Inductive FetchOutcome : Type :=
| Rejected (e : Thrown)
| Fulfilled (res : Response.t).

(** The arguments of a [fetch] call.  The body is kept as the value that
    [JSON.stringify] serialises. *)
Record Request : Type := {
  target : string;
  method : string;
  headers : list (string * string);
  body : JSON
}.

(** ** The component's state *)

Inductive AppStatus : Type := idle | loading | success | error.

Definition AppStatus_eqb (a b : AppStatus) : bool :=
  match a, b with
  | idle, idle | loading, loading | success, success | error, error => true
  | _, _ => false
  end.

(** The four signals of [App] (lines 36 to 39) and, beside them, the
    requests issued by [fetch] that have not settled.  The source types
    [result] as [DownloadResult | null]; what it holds at run time is the
    value [res.json()] gave, which nothing checks against that interface,
    so the model keeps a JSON value, [JNull] for [null]. *)
Record World : Type := {
  url : string;
  status : AppStatus;
  result : JSON;
  errorMsg : string;
  inflight : list Request
}.

Definition initial : World :=
  {| url := EmptyString; status := idle; result := JNull;
     errorMsg := EmptyString; inflight := [] |}.

(** ** Handlers as state computations *)

Definition M (A : Type) : Type := World -> A * World.

Definition ret {A : Type} (a : A) : M A := fun w => (a, w).

Definition bind {A B : Type} (m : M A) (k : A -> M B) : M B :=
  fun w => let (a, w') := m w in k a w'.

Definition exec {A : Type} (m : M A) (w : World) : World := snd (m w).

Declare Scope handler_scope.
Delimit Scope handler_scope with handler.
Notation "x <- m ;; k" := (bind m (fun x => k))
  (at level 61, m at next level, right associativity) : handler_scope.
Notation "m ;; k" := (bind m (fun _ => k))
  (at level 61, right associativity) : handler_scope.

Definition read {A : Type} (f : World -> A) : M A := fun w => (f w, w).

Definition setUrl (v : string) : M unit := fun w =>
  (tt, {| url := v; status := status w; result := result w;
          errorMsg := errorMsg w; inflight := inflight w |}).

Definition setStatus (v : AppStatus) : M unit := fun w =>
  (tt, {| url := url w; status := v; result := result w;
          errorMsg := errorMsg w; inflight := inflight w |}).

Definition setResult (v : JSON) : M unit := fun w =>
  (tt, {| url := url w; status := status w; result := v;
          errorMsg := errorMsg w; inflight := inflight w |}).

Definition setErrorMsg (v : string) : M unit := fun w =>
  (tt, {| url := url w; status := status w; result := result w;
          errorMsg := v; inflight := inflight w |}).

(** [fetch(...)]: the request leaves; its promise settles later. *)
Definition fetch (req : Request) : M unit := fun w =>
  (tt, {| url := url w; status := status w; result := result w;
          errorMsg := errorMsg w; inflight := (inflight w ++ [req])%list |}).

(** The network takes a request out of flight when it settles it. *)
Definition with_inflight (l : list Request) (w : World) : World :=
  {| url := url w; status := status w; result := result w;
     errorMsg := errorMsg w; inflight := l |}.

(** ** The component

    Everything below is relative to the host [R]. *)

Section App.

Variable R : Runtime.

(** Line 18: the configured base without one trailing slash, or the local
    default. *)
Definition API_BASE : string :=
  match VITE_API_BASE R with
  | Some v => Str.strip_trailing_slash v
  | None => "http://localhost:8000"
  end.

(** Line 58: [url() ? detectPlatform(url()) : null] *)
Definition platform (w : World) : option string :=
  if Str.truthy (url w) then detectPlatform (url w) else None.

(** Line 59 *)
Definition isLoading (w : World) : bool := AppStatus_eqb (status w) loading.

Definition invalid_url_message : string :=
  "Invalid URL. Please enter a valid http or https URL.".

Definition unsupported_scheme_message (protocol : string) : string :=
  "Unsupported URL scheme " ++ Str.dquote ++ protocol ++ Str.dquote
    ++ ". Only http and https are allowed.".

Definition unknown_error_message : string := "Unknown error occurred".

Definition server_error_message (code : N) : string :=
  "Server error " ++ Str.decimal code.

(** The request of lines 85 to 89 for the trimmed text. *)
Definition download_request (trimmed : string) : Request :=
  {| target := API_BASE ++ "/api/download";
     method := "POST";
     headers := [("Content-Type", "application/json")];
     body := JObj [("url", JStr trimmed)] |}.

(** Lines 61 to 89: the part of [handleDownload] that runs when the form is
    submitted, up to the [await] on the promise of [fetch]. *)
Definition handleDownload : M unit :=
  (u <- read url ;;
   let trimmed := Str.trim u in
   if negb (Str.truthy trimmed) then ret tt
   else
     match new_URL R trimmed with
     | Some parsed =>
         if negb (String.eqb (protocol parsed) "http:")
            && negb (String.eqb (protocol parsed) "https:")
         then
           setErrorMsg (unsupported_scheme_message (protocol parsed)) ;;
           setStatus error
         else
           setStatus loading ;;
           setResult JNull ;;
           setErrorMsg EmptyString ;;
           fetch (download_request trimmed)
     | None =>
         setErrorMsg invalid_url_message ;;
         setStatus error
     end)%handler.

(** Lines 85 to 96: what the [try] block computes once the promise of
    [fetch] has settled: the value that reaches [setResult], or what was
    thrown on the way. *)
Definition attempt (o : FetchOutcome) : Completion JSON :=
  (res <-? match o with
           | Rejected e => Throw e
           | Fulfilled res => Normal res
           end ;;
   if negb (Response.ok res) then
     let data := match Response.json res with
                 | Normal v => v
                 | Throw _ => JObj []
                 end in
     detail <-? Json.property R data "detail" ;;
     message <-? match detail with
                 | None | Some JNull =>
                     Normal (server_error_message (Response.status res))
                 | Some d => Json.ToString R d
                 end ;;
     Throw (Err message)
   else Response.json res)%completion.

(** Line 100: [err instanceof Error ? err.message : 'Unknown error occurred'] *)
Definition caught_message (err : Thrown) : string :=
  match err with
  | Err m => m
  | NotAnError => unknown_error_message
  end.

(** *** The success panel

    The renderer brings the page up to date within each write of a signal.
    The write [setStatus('success')] of line 98 is the one that shows the
    success panel, so the children of that panel are built inside the [try]
    of lines 84 to 103: what is thrown while building them leaves through
    that call and reaches the [catch] of line 99. *)

(** Line 282: the [when] of the success panel, which holds the link and the
    button New download. *)
Definition success_shown (w : World) : bool :=
  AppStatus_eqb (status w) success && Json.truthy (result w).

(** The anchor of lines 313 to 316, as rendered. *)
Record Anchor : Type := {
  href : string;
  (** the [download] attribute; [None] when the attribute is not set *)
  download : option string
}.

(** Line 309, [{res().filename}] as the child of a paragraph.  A string or a
    number becomes text, and [null], a boolean and [undefined] (here [None])
    become nothing; an array or an object is handed to the renderer. *)
Definition filename_child (x : option JSON) : Completion unit :=
  match x with
  | Some (JArr items) => insert_child R (JArr items)
  | Some (JObj members) => insert_child R (JObj members)
  | _ => Normal tt
  end.

(** Line 315, [download={res().filename}]: the attribute is removed for
    [null] and [undefined]; any other value is set, and setting converts it
    to a string. *)
Definition download_attribute (x : option JSON)
  : Completion (option string) :=
  match x with
  | None | Some JNull => Normal None
  | Some v => (text <-? Json.ToString R v ;; Normal (Some text))%completion
  end.

(** Lines 283 to 336 built for the payload [data]: the file name as a child,
    then the values of [href] and [download], then the two attributes set,
    [href] (always a string) first. *)
Definition render_success_panel (data : JSON) : Completion Anchor :=
  (done <-? filename_child (Json.own data "filename") ;;
   path <-? Json.template R (Json.own data "download_url") ;;
   name <-? download_attribute (Json.own data "filename") ;;
   Normal {| href := API_BASE ++ path; download := name |})%completion.

(** The link the page shows: none unless the success panel is shown; then
    what building the panel for the result gives. *)
Definition download_link (w : World) : option (Completion Anchor) :=
  if success_shown w then Some (render_success_panel (result w)) else None.

(** What showing the success panel for the payload [data] throws, if
    anything; a falsy payload shows no panel. *)
Definition render_failure (data : JSON) : option Thrown :=
  if Json.truthy data then
    match render_success_panel data with
    | Normal _ => None
    | Throw err => Some err
    end
  else None.

(** Lines 90 to 103: the rest of [handleDownload], run when the promise of
    [fetch] settles with [o].  After [setStatus('success')] the panel has
    been built; what that threw is caught like anything else thrown in the
    [try]. *)
Definition resume (o : FetchOutcome) : M unit :=
  (match attempt o with
   | Normal data =>
       setResult data ;;
       setStatus success ;;
       shown <- read download_link ;;
       match shown with
       | Some (Throw err) => setErrorMsg (caught_message err) ;; setStatus error
       | _ => ret tt
       end
   | Throw err => setErrorMsg (caught_message err) ;; setStatus error
   end)%handler.

(** Lines 106 to 111 *)
Definition reset : M unit :=
  (setUrl EmptyString ;;
   setStatus idle ;;
   setResult JNull ;;
   setErrorMsg EmptyString)%handler.

(** *** The rendered page *)

(** Line 207: the text field is [disabled={isLoading()}]. *)
Definition input_disabled (w : World) : bool := isLoading w.

(** Line 241: the submit button is [disabled={isLoading()}]. *)
Definition submit_disabled (w : World) : bool := isLoading w.

(** Line 340: the [when] of the error panel, which holds the message and
    the button Try again. *)
Definition error_shown (w : World) : bool := AppStatus_eqb (status w) error.

(** The message the page shows: that of the error panel. *)
Definition shown_error (w : World) : option string :=
  if error_shown w then Some (errorMsg w) else None.

(** *** Events *)

Inductive Event : Type :=
| Input (v : string)                 (* typing: [onInput], line 200 *)
| Submit                             (* [onSubmit], line 174 *)
| Reset                              (* [onClick={reset}], lines 328, 368 *)
| Settle (n : nat) (o : FetchOutcome).  (* the n-th request in flight settles *)

(** The [n]-th element taken out of a list. *)
Fixpoint take_out {A : Type} (n : nat) (l : list A) : option (A * list A) :=
  match l, n with
  | [], _ => None
  | x :: l', O => Some (x, l')
  | x :: l', S n' =>
      match take_out n' l' with
      | Some (y, rest) => Some (y, x :: rest)
      | None => None
      end
  end.

(** One event on the page; [None] when the page does not take the event:
    a disabled control, a button that is not rendered, no such request. *)
Definition step (e : Event) (w : World) : option World :=
  match e with
  | Input v => if input_disabled w then None else Some (exec (setUrl v) w)
  | Submit => if submit_disabled w then None else Some (exec handleDownload w)
  | Reset =>
      if success_shown w || error_shown w then Some (exec reset w) else None
  | Settle n o =>
      match take_out n (inflight w) with
      | Some (_, rest) => Some (exec (resume o) (with_inflight rest w))
      | None => None
      end
  end.

Fixpoint run (es : list Event) (w : World) : option World :=
  match es with
  | [] => Some w
  | e :: es' =>
      match step e w with
      | Some w' => run es' w'
      | None => None
      end
  end.

(** The states the page can be in. *)
Definition reachable (w : World) : Prop :=
  exists es, run es initial = Some w.

End App.

(** ** A host for the examples

    URL parsing reduced to the scheme state of the URL parser: a letter, then
    letters, digits, [+], [-] and [.] up to the colon, lower-cased.  The real
    parser goes on to reject some texts this one accepts; the examples use
    texts on which the two agree.  The renderer of this host puts any array
    or object in place without throwing; the examples give it none. *)

Module Example.

Definition is_alpha (c : ascii) : bool :=
  let n := N_of_ascii c in
  (((65 <=? n) && (n <=? 90)) || ((97 <=? n) && (n <=? 122)))%N.

Definition is_scheme_char (c : ascii) : bool :=
  let n := N_of_ascii c in
  (is_alpha c || ((48 <=? n) && (n <=? 57))
   || (n =? 43) || (n =? 45) || (n =? 46))%N.

Definition lower (c : ascii) : ascii :=
  let n := N_of_ascii c in
  if ((65 <=? n) && (n <=? 90))%N then ascii_of_N (n + 32) else c.

Fixpoint scheme_rest (s : string) : option string :=
  match s with
  | EmptyString => None
  | String c s' =>
      if Ascii.eqb c ":"%char then Some EmptyString
      else if is_scheme_char c
           then option_map (String (lower c)) (scheme_rest s')
           else None
  end.

Definition scheme (s : string) : option string :=
  match s with
  | EmptyString => None
  | String c _ => if is_alpha c then scheme_rest s else None
  end.

Definition browser : Runtime :=
  {| VITE_API_BASE := None;
     new_URL := fun s =>
       option_map (fun sch => {| protocol := sch ++ ":" |}) (scheme s);
     null_property_message :=
       "Cannot read properties of null (reading 'detail')";
     not_primitive_message := "Cannot convert object to primitive value";
     insert_child := fun _ => Normal tt |}.

Definition video : JSON :=
  JObj [("status", JStr "ok"); ("message", JStr "done");
        ("filename", JStr "video.mp4");
        ("download_url", JStr "/files/video.mp4")].

End Example.

(** ** Vocabulary of the statements *)

(** The texts each specific platform is recognised by, as the patterns of
    [PLATFORMS] spell them. *)
Definition mentions_YouTube (s : string) : Prop :=
  Str.occurs_ci "youtube.com" s \/ Str.occurs_ci "youtu.be" s.

Definition mentions_Instagram (s : string) : Prop :=
  Str.occurs_ci "instagram.com" s.

Definition mentions_TikTok (s : string) : Prop :=
  Str.occurs_ci "tiktok.com" s.

Definition mentions_Facebook (s : string) : Prop :=
  Str.occurs_ci "facebook.com" s \/ Str.occurs_ci "fb.watch" s.

(** A request that brought nothing usable on the success path: the promise
    of [fetch] was rejected with [e] (no response), or a response in the 2xx
    range came whose [json()] was rejected with [e] (the body does not
    parse). *)
Definition transport_or_parse_failure (o : FetchOutcome) (e : Thrown) : Prop :=
  o = Rejected e
  \/ exists res, o = Fulfilled res /\ Response.ok res = true
                 /\ Response.json res = Throw e.

(** What holds of the signals and the network in each status. *)
Definition consistent (w : World) : Prop :=
  match status w with
  | idle => result w = JNull /\ errorMsg w = EmptyString /\ inflight w = []
  | loading =>
      result w = JNull /\ errorMsg w = EmptyString
      /\ exists req, inflight w = [req]
  | success => errorMsg w = EmptyString /\ inflight w = []
  | error => inflight w = []
  end.

(** ** The rest of the page *)

(** Line 210: the chip next to the text field, [<Show when={platform()}>]
    around [{platform()}]. *)
Definition chip (w : World) : option string :=
  match platform w with
  | Some n => if Str.truthy n then Some n else None
  | None => None
  end.

(** Lines 257 to 272: the tag of entry [p] under the form is highlighted when
    [platform() === p.name]. *)
Definition tag_highlighted (w : World) (p : Platform) : bool :=
  match platform w with
  | Some n => String.eqb n (name p)
  | None => false
  end.

(** The tags are rendered by [<For each={PLATFORMS}>], in table order. *)
Definition highlighted_tags (w : World) : list string :=
  map name (filter (tag_highlighted w) PLATFORMS).

(** The text [t] passes the guard of lines 64 to 78 on host [R]. *)
Definition guard_accepts (R : Runtime) (t : string) : Prop :=
  t <> EmptyString
  /\ exists u, new_URL R t = Some u
               /\ (protocol u = "http:" \/ protocol u = "https:").

(** The text mentions one of the four specific platforms. *)
Definition mentions_specific (s : string) : Prop :=
  mentions_YouTube s \/ mentions_Instagram s \/ mentions_TikTok s
  \/ mentions_Facebook s.

(** The text starts with [http://] or [https://], in any letter case. *)
Definition starts_http (s : string) : Prop :=
  Str.starts_ci "http://" s \/ Str.starts_ci "https://" s.

(** ** The theme (lines 41 to 56)

    The signal [isDark], the browser's [localStorage] and the class list of
    the document element.  Storage is taken to be available: [getItem] and
    [setItem] do not throw. *)

Module Theme.

(** [localStorage]: keys with their values, in the order they were first
    set. *)
Definition Storage : Type := list (string * string).

Fixpoint getItem (k : string) (st : Storage) : option string :=
  match st with
  | [] => None
  | (k', v) :: st' => if String.eqb k k' then Some v else getItem k st'
  end.

Fixpoint setItem (k v : string) (st : Storage) : Storage :=
  match st with
  | [] => [(k, v)]
  | (k', v') :: st' =>
      if String.eqb k k' then (k, v) :: st' else (k', v') :: setItem k v st'
  end.

(** A [DOMTokenList]: an ordered set of tokens. *)
Definition ClassList : Type := list string.

Definition contains (tok : string) (l : ClassList) : bool :=
  existsb (String.eqb tok) l.

(** [l.toggle(tok, force)]: with [force] true the token is added unless it is
    there; with [force] false it is removed. *)
Definition toggle (tok : string) (force : bool) (l : ClassList) : ClassList :=
  if force then (if contains tok l then l else (l ++ [tok])%list)
  else filter (fun t => negb (String.eqb tok t)) l.

Record Page : Type := {
  isDark : bool;
  localStorage : Storage;
  classList : ClassList
}.

(** The page as the component is created: [createSignal(true)], line 42. *)
Definition created (st : Storage) (cl : ClassList) : Page :=
  {| isDark := true; localStorage := st; classList := cl |}.

(** The text written for a theme, line 55. *)
Definition theme_text (dark : bool) : string :=
  if dark then "dark" else "light".

(** Lines 44 to 49 *)
Definition onMount (p : Page) : Page :=
  let saved := getItem "theme" (localStorage p) in
  let dark := match saved with
              | Some s => if Str.truthy s then String.eqb s "dark" else true
              | None => true
              end in
  {| isDark := dark;
     localStorage := localStorage p;
     classList := toggle "light" (negb dark) (classList p) |}.

(** Lines 51 to 56 *)
Definition toggleTheme (p : Page) : Page :=
  let next := negb (isDark p) in
  {| isDark := next;
     localStorage := setItem "theme" (theme_text next) (localStorage p);
     classList := toggle "light" (negb next) (classList p) |}.

(** [n] clicks on the theme button. *)
Fixpoint clicks (n : nat) (p : Page) : Page :=
  match n with
  | O => p
  | S n' => clicks n' (toggleTheme p)
  end.

(** A later visit: the component is created again over the storage the
    earlier page left, and mounted. *)
Definition reload (p : Page) (cl : ClassList) : Page :=
  onMount (created (localStorage p) cl).

End Theme.

(** * Proofs *)

(** ** Strings *)

Lemma append_assoc_s (a b c : string) : (a ++ b) ++ c = a ++ (b ++ c).
Proof.
  induction a as [|x a IH]; simpl; [reflexivity | now rewrite IH].
Qed.



Lemma upper_empty (m : string) : Str.upper m = EmptyString -> m = EmptyString.
Proof.
  destruct m; simpl; [reflexivity | discriminate].
Qed.

(** A text that reads as [a ++ b] up to letter case splits accordingly. *)
Lemma upper_split (a b m : string) :
  Str.upper m = Str.upper (a ++ b) ->
  exists m1 m2, m = m1 ++ m2 /\ Str.upper m1 = Str.upper a
                /\ Str.upper m2 = Str.upper b.
Proof.
  revert m; induction a as [|x a IH]; intros m H; simpl in H.
  - exists EmptyString, m. auto.
  - destruct m as [|y m]; simpl in H; [discriminate|].
    injection H as Hy Hm.
    destruct (IH m Hm) as (m1 & m2 & -> & H1 & H2).
    exists (String y m1), m2. simpl. rewrite Hy, H1. auto.
Qed.

(** ** The matcher on literal patterns *)

Lemma matcher_lit (w : string) :
  forall (b : bool) (s : string) (k : bool -> string -> bool),
    Regex.matcher (Regex.lit w) b s k = true <->
    exists mid post,
      s = mid ++ post /\ Str.upper mid = Str.upper w
      /\ k (if Str.truthy w then false else b) post = true.
Proof.
  induction w as [|c w IH]; intros b s k; simpl.
  - split.
    + intro H. exists EmptyString, s. auto.
    + intros (mid & post & -> & Hu & Hk).
      apply upper_empty in Hu. subst mid. exact Hk.
  - destruct s as [|a s'].
    + split; [discriminate|].
      intros (mid & post & E & Hu & _).
      destruct mid; simpl in *; discriminate.
    + destruct (Ascii.eqb (Str.canonicalize a) (Str.canonicalize c)) eqn:Eq.
      * apply Ascii.eqb_eq in Eq. rewrite IH. split.
        -- intros (mid & post & -> & Hu & Hk).
           exists (String a mid), post. simpl. rewrite Eq, Hu.
           destruct (Str.truthy w); auto.
        -- intros (mid & post & E & Hu & Hk).
           destruct mid as [|a' mid]; simpl in Hu; [discriminate|].
           simpl in E. injection E as -> ->. injection Hu as _ Hu.
           exists mid, post. destruct (Str.truthy w); auto.
      * split; [discriminate|].
        intros (mid & post & E & Hu & _).
        destruct mid as [|a' mid]; simpl in Hu; [discriminate|].
        simpl in E. injection E as -> ->. injection Hu as Hc _.
        rewrite Hc, Ascii.eqb_refl in Eq. discriminate.
Qed.

Lemma matches_here_lit (w : string) (b : bool) (s : string) :
  Regex.matches_here (Regex.lit w) b s = true <-> Str.starts_ci w s.
Proof.
  unfold Regex.matches_here, Str.starts_ci. rewrite matcher_lit.
  split.
  - intros (mid & post & H1 & H2 & _); exists mid, post; auto.
  - intros (mid & post & H1 & H2); exists mid, post; auto.
Qed.

Lemma search_spec (r : Regex.t) :
  forall (s : string) (b : bool),
    Regex.search r b s = true <->
    exists pre rest,
      s = pre ++ rest
      /\ Regex.matches_here r (if Str.truthy pre then false else b) rest = true.
Proof.
  induction s as [|a s IH]; intros b; simpl.
  - rewrite orb_false_r. split.
    + intro H. exists EmptyString, EmptyString. auto.
    + intros (pre & rest & E & H).
      destruct pre; simpl in E; [|discriminate]. subst rest. exact H.
  - rewrite orb_true_iff, IH. split.
    + intros [H | (pre & rest & -> & H)].
      * exists EmptyString, (String a s). auto.
      * exists (String a pre), rest. simpl.
        destruct (Str.truthy pre); auto.
    + intros (pre & rest & E & H). destruct pre as [|a' pre]; simpl in *.
      * left. subst rest. exact H.
      * right. injection E as -> ->. exists pre, rest.
        destruct (Str.truthy pre); auto.
Qed.

Lemma test_lit (w s : string) :
  Regex.test (Regex.lit w) s = true <-> Str.occurs_ci w s.
Proof.
  unfold Regex.test, Str.occurs_ci. rewrite search_spec. split.
  - intros (pre & rest & -> & H). apply matches_here_lit in H.
    destruct H as (mid & post & -> & Hu). exists pre, mid, post. auto.
  - intros (pre & mid & post & -> & Hu). exists pre, (mid ++ post).
    split; [reflexivity|]. apply matches_here_lit. exists mid, post. auto.
Qed.

Lemma test_alt (r1 r2 : Regex.t) (s : string) :
  Regex.test (Regex.Alt r1 r2) s = Regex.test r1 s || Regex.test r2 s.
Proof.
  unfold Regex.test. generalize true.
  induction s as [|a s IH]; intros b; simpl.
  - unfold Regex.matches_here. simpl. now rewrite !orb_false_r.
  - rewrite IH. unfold Regex.matches_here. simpl.
    destruct (Regex.matcher r1 b (String a s) _),
             (Regex.matcher r2 b (String a s) _),
             (Regex.search r1 false s), (Regex.search r2 false s); reflexivity.
Qed.

Lemma search_here (r : Regex.t) (b : bool) (s : string) :
  Regex.matches_here r b s = true -> Regex.search r b s = true.
Proof.
  intro H. destruct s; simpl; rewrite H; reflexivity.
Qed.

(** The catch-all [/^https?:\/\//i] takes every text that starts with
    [http://] or [https://], in any letter case. *)
Lemma generic_pattern_matches (s : string) :
  Str.starts_ci "http://" s \/ Str.starts_ci "https://" s ->
  Regex.test
    (Regex.Seq Regex.Bol
       (Regex.Seq (Regex.lit "http")
          (Regex.Seq (Regex.Opt (Regex.Chr "s"%char)) (Regex.lit "://")))) s
  = true.
Proof.
  intro H. apply search_here. unfold Regex.matches_here.
  cbn [Regex.matcher]. apply matcher_lit.
  destruct H as [(mid & post & -> & Hu) | (mid & post & -> & Hu)].
  - destruct (upper_split "http" "://" mid Hu) as (m1 & m2 & -> & H1 & H2).
    exists m1, (m2 ++ post). rewrite append_assoc_s.
    repeat split; [exact H1|]. cbn [Regex.matcher Str.truthy].
    apply orb_true_iff. right. apply matcher_lit. exists m2, post. auto.
  - destruct (upper_split "http" "s://" mid Hu) as (m1 & m2 & -> & H1 & H2).
    exists m1, (m2 ++ post). rewrite append_assoc_s.
    repeat split; [exact H1|]. cbn [Regex.matcher Str.truthy].
    apply orb_true_iff. left.
    destruct m2 as [|a m2]; simpl in H2; [discriminate|].
    injection H2 as Ha H2. cbn [append].
    replace (Str.canonicalize "s") with "S"%char by reflexivity.
    rewrite Ha, Ascii.eqb_refl. apply matcher_lit. exists m2, post. auto.
Qed.

(** ** [find]: the first entry that satisfies the test *)

Lemma find_first {A : Type} (f : A -> bool) (l : list A) (x : A) :
  find f l = Some x <->
  exists before after,
    l = (before ++ x :: after)%list /\ f x = true
    /\ Forall (fun y => f y = false) before.
Proof.
  induction l as [|y l IH]; simpl.
  - split; [discriminate|].
    intros (before & after & E & _). destruct before; discriminate.
  - destruct (f y) eqn:Fy.
    + split.
      * intros [= ->]. exists [], l. auto.
      * intros (before & after & E & Fx & Hb).
        destruct before as [|z before]; simpl in E.
        -- now injection E as ->.
        -- injection E as -> ->. inversion Hb; subst. congruence.
    + rewrite IH. split.
      * intros (before & after & -> & Fx & Hb).
        exists (y :: before), after. auto.
      * intros (before & after & E & Fx & Hb).
        destruct before as [|z before]; simpl in E.
        -- injection E as -> ->. congruence.
        -- injection E as -> ->. inversion Hb; subst.
           exists before, after. auto.
Qed.

Lemma find_none {A : Type} (f : A -> bool) (l : list A) :
  find f l = None <-> Forall (fun y => f y = false) l.
Proof.
  induction l as [|y l IH]; simpl.
  - split; auto.
  - destruct (f y) eqn:Fy.
    + split; [discriminate|]. intro H. inversion H; subst. congruence.
    + rewrite IH. split; intro H; [auto | now inversion H].
Qed.

(** ** The patterns of the table, in words *)

Lemma test_YouTube (s : string) :
  Regex.test (Regex.Alt (Regex.lit "youtube.com") (Regex.lit "youtu.be")) s
  = true <-> mentions_YouTube s.
Proof.
  rewrite test_alt, orb_true_iff, !test_lit. reflexivity.
Qed.

Lemma test_Facebook (s : string) :
  Regex.test (Regex.Alt (Regex.lit "facebook.com") (Regex.lit "fb.watch")) s
  = true <-> mentions_Facebook s.
Proof.
  rewrite test_alt, orb_true_iff, !test_lit. reflexivity.
Qed.

Lemma test_absent (r : Regex.t) (s : string) (P : Prop) :
  (Regex.test r s = true <-> P) -> ~ P -> Regex.test r s = false.
Proof.
  intros H N. destruct (Regex.test r s); [|reflexivity].
  exfalso. apply N, H. reflexivity.
Qed.

Lemma detectPlatform_unfold (s : string) :
  detectPlatform s =
  if Regex.test (Regex.Alt (Regex.lit "youtube.com") (Regex.lit "youtu.be")) s
  then Some "YouTube"
  else if Regex.test (Regex.lit "instagram.com") s then Some "Instagram"
  else if Regex.test (Regex.lit "tiktok.com") s then Some "TikTok"
  else if Regex.test
            (Regex.Alt (Regex.lit "facebook.com") (Regex.lit "fb.watch")) s
  then Some "Facebook"
  else if Regex.test
            (Regex.Seq Regex.Bol
               (Regex.Seq (Regex.lit "http")
                  (Regex.Seq (Regex.Opt (Regex.Chr "s"%char))
                     (Regex.lit "://")))) s
  then Some "Generic"
  else None.
Proof.
  unfold detectPlatform, PLATFORMS. cbn [find pattern].
  repeat match goal with
         | |- context [if ?c then _ else _] => destruct c; try reflexivity
         end.
Qed.

(** C5. For every input text, [detectPlatform] walks the fixed list YouTube,
    Instagram, TikTok, Facebook, Generic from the top and returns the name of
    the first entry whose pattern matches (and nothing when none does); a
    text that begins with [http://] or [https://] matches the Generic entry,
    so it is always classified, as Generic when no specific entry matches;
    the empty text gets no classification, from [detectPlatform] and from
    the [platform] accessor alike. *)
Theorem C5_detectPlatform_first_match :
  map name PLATFORMS = ["YouTube"; "Instagram"; "TikTok"; "Facebook"; "Generic"]
  /\ (forall s n,
         detectPlatform s = Some n <->
         exists before p after,
           PLATFORMS = (before ++ p :: after)%list /\ name p = n
           /\ Regex.test (pattern p) s = true
           /\ Forall (fun q => Regex.test (pattern q) s = false) before)
  /\ (forall s,
         detectPlatform s = None <->
         Forall (fun q => Regex.test (pattern q) s = false) PLATFORMS)
  /\ (forall s,
         Str.starts_ci "http://" s \/ Str.starts_ci "https://" s ->
         (forall p, In p PLATFORMS -> name p = "Generic" ->
                    Regex.test (pattern p) s = true)
         /\ (exists n, detectPlatform s = Some n)
         /\ ((forall q, In q PLATFORMS -> name q <> "Generic" ->
                        Regex.test (pattern q) s = false) ->
             detectPlatform s = Some "Generic"))
  /\ detectPlatform EmptyString = None
  /\ (forall w, url w = EmptyString -> platform w = None)
  /\ (forall w, url w <> EmptyString -> platform w = detectPlatform (url w)).
Proof.
  split; [reflexivity|].
  split.
  { intros s n. unfold detectPlatform.
    destruct (find _ PLATFORMS) as [p|] eqn:F; simpl.
    - apply find_first in F. destruct F as (before & after & E & T & B).
      split.
      + intros [= <-]. exists before, p, after. auto.
      + intros (before' & p' & after' & E' & <- & T' & B').
        assert (F' : find (fun q => Regex.test (pattern q) s) PLATFORMS
                     = Some p').
        { apply find_first. exists before', after'. auto. }
        assert (F : find (fun q => Regex.test (pattern q) s) PLATFORMS
                    = Some p).
        { apply find_first. exists before, after. auto. }
        congruence.
    - split; [discriminate|].
      intros (before & p & after & E & _ & T & B).
      assert (F' : find (fun q => Regex.test (pattern q) s) PLATFORMS
                   = Some p).
      { apply find_first. exists before, after. auto. }
      congruence. }
  split.
  { intros s. unfold detectPlatform. rewrite <- find_none.
    destruct (find _ PLATFORMS); simpl; split; congruence. }
  split.
  { intros s H.
    assert (G : forall p, In p PLATFORMS -> name p = "Generic" ->
                          Regex.test (pattern p) s = true).
    { intros p Hp Hn. unfold PLATFORMS in Hp. simpl in Hp.
      destruct Hp as [<-|[<-|[<-|[<-|[<-|[]]]]]]; try discriminate Hn.
      apply generic_pattern_matches, H. }
    split; [exact G|].
    pose proof (generic_pattern_matches s H) as T.
    split.
    - rewrite detectPlatform_unfold, T.
      repeat match goal with
             | |- context [if ?c then _ else _] => destruct c; eauto
             end.
    - intros N. rewrite detectPlatform_unfold, T.
      assert (N' : forall n r, In {| name := n; pattern := r |} PLATFORMS ->
                               n <> "Generic" -> Regex.test r s = false).
      { intros n r Hq Hn. exact (N _ Hq Hn). }
      rewrite (N' "YouTube"), (N' "Instagram"), (N' "TikTok"), (N' "Facebook");
        solve [ reflexivity | discriminate | unfold PLATFORMS; simpl; auto 6 ]. }
  split; [reflexivity|].
  split.
  - intros w H. unfold platform. rewrite H. reflexivity.
  - intros w H. unfold platform. destruct (url w); [congruence | reflexivity].
Qed.

(** C5 at [https://example.org/clip]: it starts with [https://], no specific
    entry matches it, and it is classified Generic. *)
Lemma C5_detectPlatform_first_match_witness :
  (Str.starts_ci "http://" "https://example.org/clip"
   \/ Str.starts_ci "https://" "https://example.org/clip")
  /\ detectPlatform "https://example.org/clip" = Some "Generic".
Proof.
  assert (H : Str.starts_ci "http://" "https://example.org/clip"
              \/ Str.starts_ci "https://" "https://example.org/clip").
  { right. exists "https://", "example.org/clip". split; reflexivity. }
  split; [exact H|].
  destruct C5_detectPlatform_first_match as (_ & _ & _ & G & _).
  destruct (G "https://example.org/clip" H) as (_ & _ & K).
  apply K. intros q Hq Hn. unfold PLATFORMS in Hq. simpl in Hq.
  destruct Hq as [<-|[<-|[<-|[<-|[<-|[]]]]]];
    solve [ vm_compute; reflexivity | exfalso; apply Hn; reflexivity ].
Defined.

(** ** The submit handler, case by case *)

Section Handlers.

Variable R : Runtime.

Lemma truthy_nonempty (s : string) : s <> EmptyString -> Str.truthy s = true.
Proof.
  destruct s; [congruence | reflexivity].
Qed.

Lemma handleDownload_blank (w : World) :
  Str.trim (url w) = EmptyString -> handleDownload R w = (tt, w).
Proof.
  intro H. unfold handleDownload, bind, read. rewrite H. reflexivity.
Qed.

Lemma handleDownload_unparsed (w : World) :
  Str.trim (url w) <> EmptyString ->
  new_URL R (Str.trim (url w)) = None ->
  handleDownload R w =
  (tt, {| url := url w; status := error; result := result w;
          errorMsg := invalid_url_message; inflight := inflight w |}).
Proof.
  intros H P. unfold handleDownload, bind, read.
  rewrite (truthy_nonempty _ H), P. reflexivity.
Qed.

Lemma handleDownload_scheme (w : World) (u : URL) :
  Str.trim (url w) <> EmptyString ->
  new_URL R (Str.trim (url w)) = Some u ->
  protocol u <> "http:" -> protocol u <> "https:" ->
  handleDownload R w =
  (tt, {| url := url w; status := error; result := result w;
          errorMsg := unsupported_scheme_message (protocol u);
          inflight := inflight w |}).
Proof.
  intros H P H1 H2. unfold handleDownload, bind, read.
  rewrite (truthy_nonempty _ H), P.
  apply String.eqb_neq in H1, H2. rewrite H1, H2. reflexivity.
Qed.

Lemma handleDownload_accepted (w : World) (u : URL) :
  Str.trim (url w) <> EmptyString ->
  new_URL R (Str.trim (url w)) = Some u ->
  protocol u = "http:" \/ protocol u = "https:" ->
  handleDownload R w =
  (tt, {| url := url w; status := loading; result := JNull;
          errorMsg := EmptyString;
          inflight := (inflight w
                         ++ [download_request R (Str.trim (url w))])%list |}).
Proof.
  intros H P H1. unfold handleDownload, bind, read.
  rewrite (truthy_nonempty _ H), P.
  destruct H1 as [-> | ->]; reflexivity.
Qed.

(** The four cases are all there are. *)
Lemma handleDownload_cases (w : World) :
  exec (handleDownload R) w = w
  \/ (exists m, exec (handleDownload R) w =
                {| url := url w; status := error; result := result w;
                   errorMsg := m; inflight := inflight w |})
  \/ exec (handleDownload R) w =
     {| url := url w; status := loading; result := JNull;
        errorMsg := EmptyString;
        inflight := (inflight w
                       ++ [download_request R (Str.trim (url w))])%list |}.
Proof.
  unfold exec.
  destruct (string_dec (Str.trim (url w)) EmptyString) as [E | E].
  { left. now rewrite handleDownload_blank. }
  destruct (new_URL R (Str.trim (url w))) as [u|] eqn:P.
  - destruct (string_dec (protocol u) "http:") as [H1 | H1].
    { right; right. rewrite (handleDownload_accepted w u); auto. }
    destruct (string_dec (protocol u) "https:") as [H2 | H2].
    { right; right. rewrite (handleDownload_accepted w u); auto. }
    right; left. eexists. rewrite (handleDownload_scheme w u); auto.
    reflexivity.
  - right; left. eexists. rewrite handleDownload_unparsed; auto.
    reflexivity.
Qed.

(** What [resume] does with each completion of the [try] block. *)
Lemma resume_rendered (o : FetchOutcome) (data : JSON) (w : World) :
  attempt R o = Normal data ->
  render_failure R data = None ->
  exec (resume R o) w =
  {| url := url w; status := success; result := data;
     errorMsg := errorMsg w; inflight := inflight w |}.
Proof.
  intros H F. unfold exec, resume. rewrite H.
  unfold bind, read, setResult, setStatus, download_link, success_shown.
  cbn [snd fst status result AppStatus_eqb andb].
  unfold render_failure in F.
  destruct (Json.truthy data); [|reflexivity].
  destruct (render_success_panel R data); [reflexivity | discriminate].
Qed.

Lemma resume_render_throw
      (o : FetchOutcome) (data : JSON) (err : Thrown) (w : World) :
  attempt R o = Normal data ->
  render_failure R data = Some err ->
  exec (resume R o) w =
  {| url := url w; status := error; result := data;
     errorMsg := caught_message err; inflight := inflight w |}.
Proof.
  intros H F. unfold exec, resume. rewrite H.
  unfold bind, read, setResult, setStatus, download_link, success_shown.
  cbn [snd fst status result AppStatus_eqb andb].
  unfold render_failure in F.
  destruct (Json.truthy data); [|discriminate].
  destruct (render_success_panel R data); [discriminate|].
  injection F as ->. reflexivity.
Qed.

Lemma resume_throw (o : FetchOutcome) (err : Thrown) (w : World) :
  attempt R o = Throw err ->
  exec (resume R o) w =
  {| url := url w; status := error; result := result w;
     errorMsg := caught_message err; inflight := inflight w |}.
Proof.
  intro H. unfold exec, resume. rewrite H. reflexivity.
Qed.

(** The [try] block completes normally only on a 2xx response whose body
    parsed. *)
Lemma attempt_normal_fulfilled (o : FetchOutcome) (data : JSON) :
  attempt R o = Normal data ->
  exists res, o = Fulfilled res /\ Response.ok res = true
              /\ Response.json res = Normal data.
Proof.
  destruct o as [e | res]; [discriminate|].
  unfold attempt. cbn [cbind]. destruct (Response.ok res) eqn:K; cbn [negb].
  - intro A. eauto.
  - destruct (Json.property R _ "detail") as [detail | e]; cbn [cbind];
      [|discriminate].
    match goal with
    | |- cbind ?c _ = _ -> _ => destruct c; discriminate
    end.
Qed.

(** The three ways a settling request leaves the page. *)
Lemma resume_outcome (o : FetchOutcome) (w : World) :
  (exists data,
      attempt R o = Normal data /\ render_failure R data = None
      /\ exec (resume R o) w =
         {| url := url w; status := success; result := data;
            errorMsg := errorMsg w; inflight := inflight w |})
  \/ (exists data err,
         attempt R o = Normal data /\ render_failure R data = Some err
         /\ exec (resume R o) w =
            {| url := url w; status := error; result := data;
               errorMsg := caught_message err; inflight := inflight w |})
  \/ (exists err,
         attempt R o = Throw err
         /\ exec (resume R o) w =
            {| url := url w; status := error; result := result w;
               errorMsg := caught_message err; inflight := inflight w |}).
Proof.
  destruct (attempt R o) as [data | err] eqn:A.
  - destruct (render_failure R data) as [e|] eqn:F.
    + right; left. exists data, e.
      repeat split; auto using resume_render_throw.
    + left. exists data. repeat split; auto using resume_rendered.
  - right; right. exists err. split; auto using resume_throw.
Qed.

(** ** The invariant of the page *)

Lemma take_out_single {A : Type} (n : nat) (x y : A) (rest : list A) :
  take_out n [x] = Some (y, rest) -> n = 0 /\ y = x /\ rest = [].
Proof.
  destruct n; simpl.
  - intros [= <- <-]. auto.
  - destruct n; discriminate.
Qed.

Lemma take_out_nil {A : Type} (n : nat) : @take_out A n [] = None.
Proof.
  destruct n; reflexivity.
Qed.

Lemma consistent_initial : consistent initial.
Proof.
  unfold consistent; simpl. auto.
Qed.

(** A request is in flight exactly while the status is [loading]. *)
Lemma consistent_inflight (w : World) :
  consistent w -> status w <> loading -> inflight w = [].
Proof.
  unfold consistent. destruct (status w); intuition congruence.
Qed.

Lemma step_consistent (e : Event) (w w' : World) :
  consistent w -> step R e w = Some w' -> consistent w'.
Proof.
  intros C S. destruct e as [v | | | n o]; simpl in S.
  - unfold input_disabled, isLoading in S.
    destruct (status w) eqn:St; simpl in S; try discriminate;
      injection S as <-; unfold consistent in *; simpl;
      rewrite St in *; exact C.
  - unfold submit_disabled, isLoading in S.
    assert (L : status w <> loading).
    { intro St. rewrite St in S. discriminate. }
    assert (S' : exec (handleDownload R) w = w').
    { destruct (status w); simpl in S; congruence. }
    clear S. pose proof (consistent_inflight w C L) as I.
    destruct (handleDownload_cases w) as [E | [(m & E) | E]];
      rewrite E in S'; subst w'.
    + exact C.
    + unfold consistent; simpl. exact I.
    + unfold consistent; simpl. rewrite I. simpl. eauto.
  - unfold success_shown, error_shown in S.
    assert (L : status w <> loading).
    { intro St. rewrite St in S. discriminate. }
    pose proof (consistent_inflight w C L) as I.
    destruct (_ || _); [|discriminate]. injection S as <-.
    unfold consistent; simpl. auto.
  - destruct (take_out n (inflight w)) as [[req rest]|] eqn:T;
      [|discriminate].
    injection S as <-.
    assert (St : status w = loading).
    { destruct (status w) eqn:St; [|reflexivity| |];
        rewrite (consistent_inflight w C), take_out_nil in T;
        congruence. }
    unfold consistent in C. rewrite St in C.
    destruct C as (Cr & Ce & req0 & Ci). rewrite Ci in T.
    apply take_out_single in T. destruct T as (_ & _ & ->).
    destruct (resume_outcome o (with_inflight [] w))
      as [(data & _ & _ & ->) | [(data & err & _ & _ & ->) | (err & _ & ->)]];
      unfold consistent; simpl; auto.
Qed.

Lemma run_consistent (es : list Event) :
  forall w w', consistent w -> run R es w = Some w' -> consistent w'.
Proof.
  induction es as [|e es IH]; intros w w' C H; simpl in H.
  - now injection H as <-.
  - destruct (step R e w) as [w1|] eqn:S; [|discriminate].
    eapply IH; [|exact H]. eapply step_consistent; eauto.
Qed.

Lemma reachable_consistent (w : World) : reachable R w -> consistent w.
Proof.
  intros (es & H). eapply run_consistent; [apply consistent_initial | exact H].
Qed.


End Handlers.

(** ** The session invariant *)




(** ** One request at a time *)

(** C8.  In every state the page can reach, at most one request is in
    flight, and one is in flight exactly while the status is [loading];
    while it is, the submit button and the text field are disabled, the page
    takes no Submit, and the only event it takes is the settling of that
    request, after which none is in flight. *)
Theorem C8_one_request_in_flight (R : Runtime) (w : World) :
  reachable R w ->
  length (inflight w) <= 1
  /\ (status w = loading <-> length (inflight w) = 1)
  /\ (status w = loading ->
      submit_disabled w = true /\ input_disabled w = true
      /\ step R Submit w = None)
  /\ (forall e w', status w = loading -> step R e w = Some w' ->
                   (exists n o, e = Settle n o) /\ inflight w' = []).
Proof.
  intro H. pose proof (reachable_consistent R w H) as C.
  split; [|split; [|split]].
  - unfold consistent in C.
    destruct (status w); try (destruct C as (_ & _ & C));
      try (destruct C as (_ & C)); try (destruct C as (req & C));
      rewrite C; simpl; lia.
  - unfold consistent in C. split.
    + intro St. rewrite St in C. destruct C as (_ & _ & req & ->). reflexivity.
    + intro L. destruct (status w); try reflexivity;
        try (destruct C as (_ & _ & C)); try (destruct C as (_ & C));
        rewrite C in L; discriminate.
  - intro St. unfold submit_disabled, input_disabled, isLoading. simpl.
    unfold submit_disabled, isLoading. rewrite St. auto.
  - intros e w' St S.
    pose proof (step_consistent R e w w' C S) as C'.
    destruct e as [v | | | n o]; simpl in S;
      unfold input_disabled, submit_disabled, success_shown, error_shown,
        isLoading in S;
      try (rewrite St in S; discriminate).
    split; [eauto|].
    destruct (take_out n (inflight w)) as [[req rest]|] eqn:T; [|discriminate].
    injection S as <-.
    unfold consistent in C. rewrite St in C. destruct C as (_ & _ & req0 & Ci).
    rewrite Ci in T. apply take_out_single in T. destruct T as (_ & _ & ->).
    destruct (resume_outcome R o (with_inflight [] w))
      as [(data & _ & _ & ->) | [(data & err & _ & _ & ->) | (err & _ & ->)]];
      reflexivity.
Qed.

(** C8 at the state reached by typing a video address and submitting it:
    one request is in flight and a second Submit is not taken. *)
Lemma C8_one_request_in_flight_witness :
  exists w,
    run Example.browser [Input "https://youtube.com/watch?v=abc"; Submit]
        initial = Some w
    /\ status w = loading
    /\ length (inflight w) <= 1
    /\ step Example.browser Submit w = None.
Proof.
  eexists. split; [reflexivity|]. split; [reflexivity|].
  match goal with
  | |- length (inflight ?w) <= 1 /\ _ =>
      destruct (C8_one_request_in_flight Example.browser w) as (B & _ & D & _)
  end.
  - exists [Input "https://youtube.com/watch?v=abc"; Submit]. reflexivity.
  - split; [exact B|]. apply D. reflexivity.
Defined.

(** The handler itself does not look at the status: called on a loading
    page it would send a second request.  The disabled controls are what
    keeps that from happening. *)
Example handleDownload_has_no_status_guard :
  exists w,
    run Example.browser [Input "https://youtube.com/watch?v=abc"; Submit]
        initial = Some w
    /\ status w = loading
    /\ length (inflight (exec (handleDownload Example.browser) w)) = 2.
Proof.
  eexists. split; [reflexivity|]. split; reflexivity.
Qed.

(** ** The local guard *)

(** C3.  When the trimmed text is not empty: if [new URL] throws on it, the
    handler stores the invalid-URL message and the status [error]; if it
    parses and its protocol is neither [http:] nor [https:], the handler
    stores the status [error] and the unsupported-scheme message, which
    quotes that protocol; either way nothing else changes, and in particular
    no request is sent. *)
Theorem C3_guard_rejects_locally (R : Runtime) (w : World) :
  Str.trim (url w) <> EmptyString ->
  (new_URL R (Str.trim (url w)) = None ->
   exec (handleDownload R) w =
   {| url := url w; status := error; result := result w;
      errorMsg := "Invalid URL. Please enter a valid http or https URL.";
      inflight := inflight w |})
  /\ (forall u,
         new_URL R (Str.trim (url w)) = Some u ->
         protocol u <> "http:" -> protocol u <> "https:" ->
         exec (handleDownload R) w =
         {| url := url w; status := error; result := result w;
            errorMsg := "Unsupported URL scheme " ++ Str.dquote ++ protocol u
                          ++ Str.dquote ++ ". Only http and https are allowed.";
            inflight := inflight w |}).
Proof.
  intro H. split.
  - intro P. unfold exec. now rewrite handleDownload_unparsed.
  - intros u P H1 H2. unfold exec.
    now rewrite (handleDownload_scheme R w u).
Qed.

(** C3 at [javascript:alert(1)], submitted on the fresh page. *)
Lemma C3_guard_rejects_locally_witness :
  let w := exec (setUrl "javascript:alert(1)") initial in
  status (exec (handleDownload Example.browser) w) = error
  /\ errorMsg (exec (handleDownload Example.browser) w)
     = unsupported_scheme_message "javascript:"
  /\ inflight (exec (handleDownload Example.browser) w) = [].
Proof.
  intro w.
  assert (N : Str.trim (url w) <> EmptyString) by (vm_compute; discriminate).
  destruct (C3_guard_rejects_locally Example.browser w N) as (_ & S).
  rewrite (S {| protocol := "javascript:" |});
    [ repeat split | reflexivity | vm_compute; discriminate
    | vm_compute; discriminate ].
Defined.

(** ** A blank submission *)

(** C4, as the code has it.  Submitting a text that is empty after trimming
    changes nothing: the handler returns at once, so the status, the result,
    the message and the text stay as they were and no request is sent.  The
    status after it is [idle] when it was [idle] before. *)
Theorem C4_blank_submit_changes_nothing (R : Runtime) (w : World) :
  Str.trim (url w) = EmptyString ->
  exec (handleDownload R) w = w
  /\ (submit_disabled w = false -> step R Submit w = Some w)
  /\ (status w = idle -> status (exec (handleDownload R) w) = idle)
  /\ inflight (exec (handleDownload R) w) = inflight w
  /\ shown_error (exec (handleDownload R) w) = shown_error w.
Proof.
  intro H.
  assert (E : exec (handleDownload R) w = w).
  { unfold exec. now rewrite handleDownload_blank. }
  rewrite E. repeat split; auto.
  intro D. simpl. now rewrite D, E.
Qed.

(** C4 at the fresh page with three spaces typed. *)
Lemma C4_blank_submit_changes_nothing_witness :
  let w := exec (setUrl "   ") initial in
  Str.trim (url w) = EmptyString
  /\ step Example.browser Submit w = Some w
  /\ status (exec (handleDownload Example.browser) w) = idle.
Proof.
  intro w.
  assert (B : Str.trim (url w) = EmptyString) by reflexivity.
  destruct (C4_blank_submit_changes_nothing Example.browser w B)
    as (_ & S & I & _).
  split; [exact B|]. split; [apply S | apply I]; reflexivity.
Defined.

(** C4 as stated fails: on a page that shows an error, a blank submission
    leaves the status [error] and the message on display; the status does
    not become [idle]. *)
Lemma C4_counterexample :
  exists w0 w,
    run Example.browser [Input "ftp://x"; Submit; Input "   "] initial = Some w0
    /\ status w0 = error
    /\ Str.trim (url w0) = EmptyString
    /\ step Example.browser Submit w0 = Some w
    /\ status w = error
    /\ status w <> idle
    /\ shown_error w = Some (unsupported_scheme_message "ftp:").
Proof.
  eexists. eexists. split; [vm_compute; reflexivity|].
  split; [reflexivity|]. split; [reflexivity|].
  split; [vm_compute; reflexivity|].
  split; [reflexivity|]. split; [discriminate | reflexivity].
Qed.

(** ** Reset *)

(** C9.  From a state whose status is [success] or [error], [reset] leaves
    the status [idle], the text empty, the result absent and the message
    empty; the page offers it there whenever a panel with the button is
    shown. *)
Theorem C9_reset_clears (R : Runtime) (w : World) :
  status w = success \/ status w = error ->
  exec reset w =
  {| url := EmptyString; status := idle; result := JNull;
     errorMsg := EmptyString; inflight := inflight w |}
  /\ (success_shown w || error_shown w = true ->
      step R Reset w = Some (exec reset w)).
Proof.
  intros _. split; [reflexivity|].
  intro S. simpl. now rewrite S.
Qed.

(** C9 at an error state holding a text and a message. *)
Lemma C9_reset_clears_witness :
  let w := {| url := "ftp://x"; status := error; result := JNull;
              errorMsg := unsupported_scheme_message "ftp:";
              inflight := [] |} in
  status (exec reset w) = idle
  /\ url (exec reset w) = EmptyString
  /\ result (exec reset w) = JNull
  /\ errorMsg (exec reset w) = EmptyString
  /\ step Example.browser Reset w = Some (exec reset w).
Proof.
  intro w.
  destruct (C9_reset_clears Example.browser w (or_intror eq_refl)) as (E & S).
  rewrite E. do 4 (split; [reflexivity|]).
  rewrite <- E. apply S. reflexivity.
Defined.

(** ** What the [try] block computes *)

Section Attempt.

Variable R : Runtime.

Lemma property_not_null (v : JSON) (k : string) :
  v <> JNull -> Json.property R v k = Normal (Json.own v k).
Proof.
  destruct v; [congruence | reflexivity ..].
Qed.

Lemma own_some_not_null (v d : JSON) (k : string) :
  Json.own v k = Some d -> v <> JNull.
Proof.
  destruct v; simpl; congruence.
Qed.

Lemma attempt_ok (res : Response.t) :
  Response.ok res = true -> attempt R (Fulfilled res) = Response.json res.
Proof.
  intro H. unfold attempt. simpl. rewrite H. reflexivity.
Qed.

Lemma attempt_unparsed (res : Response.t) (e : Thrown) :
  Response.ok res = false -> Response.json res = Throw e ->
  attempt R (Fulfilled res)
  = Throw (Err (server_error_message (Response.status res))).
Proof.
  intros H J. unfold attempt. simpl. rewrite H, J. reflexivity.
Qed.

Lemma attempt_no_detail (res : Response.t) (body : JSON) :
  Response.ok res = false -> Response.json res = Normal body ->
  body <> JNull ->
  Json.own body "detail" = None \/ Json.own body "detail" = Some JNull ->
  attempt R (Fulfilled res)
  = Throw (Err (server_error_message (Response.status res))).
Proof.
  intros H J N D. unfold attempt. simpl.
  rewrite H, J, (property_not_null body "detail" N). simpl.
  destruct D as [-> | ->]; reflexivity.
Qed.

Lemma attempt_detail (res : Response.t) (body d : JSON) (m : string) :
  Response.ok res = false -> Response.json res = Normal body ->
  Json.own body "detail" = Some d -> d <> JNull ->
  Json.ToString R d = Normal m ->
  attempt R (Fulfilled res) = Throw (Err m).
Proof.
  intros H J D N T. unfold attempt. simpl.
  rewrite H, J, (property_not_null body "detail" (own_some_not_null _ _ _ D)).
  simpl. rewrite D. destruct d; try congruence; rewrite T; reflexivity.
Qed.

(** On a response outside the 2xx range the block always throws. *)
Lemma attempt_not_ok_throws (res : Response.t) :
  Response.ok res = false -> exists err, attempt R (Fulfilled res) = Throw err.
Proof.
  intro H. unfold attempt. cbn [cbind]. rewrite H. cbn [negb].
  destruct (Json.property R _ "detail") as [detail | e]; cbn [cbind];
    [|eauto].
  match goal with
  | |- context [cbind ?c _] => destruct c; cbn [cbind]; eauto
  end.
Qed.



(** A payload that carries its file name as a string, or carries none,
    and its address as a string, or carries none, is rendered without a
    throw. *)
Lemma render_plain (data : JSON) (path : string) (name : option string) :
  (Json.own data "download_url" = Some (JStr path)
   \/ (Json.own data "download_url" = None /\ path = "undefined")) ->
  (match name with
   | Some f => Json.own data "filename" = Some (JStr f)
   | None => Json.own data "filename" = None
   end) ->
  render_success_panel R data
  = Normal {| href := API_BASE R ++ path; download := name |}
  /\ render_failure R data = None.
Proof.
  intros D F.
  assert (P : render_success_panel R data
              = Normal {| href := API_BASE R ++ path; download := name |}).
  { unfold render_success_panel, filename_child, download_attribute.
    destruct name as [f|]; rewrite F;
      destruct D as [-> | (-> & ->)]; reflexivity. }
  split; [exact P|]. unfold render_failure. rewrite P.
  destruct (Json.truthy data); reflexivity.
Qed.

Lemma settle_throw (n : nat) (o : FetchOutcome) (err : Thrown) (w w' : World) :
  attempt R o = Throw err -> step R (Settle n o) w = Some w' ->
  status w' = error /\ errorMsg w' = caught_message err
  /\ result w' = result w /\ url w' = url w.
Proof.
  intros A S. simpl in S.
  destruct (take_out n (inflight w)) as [[req rest]|]; [|discriminate].
  injection S as <-. rewrite (resume_throw R o err _ A). simpl. auto.
Qed.

End Attempt.

(** ** Failures without a usable response *)

(** C2, as the code has it.  When the request fails at the network level or
    a 2xx response has a body that does not parse, the page goes to [error]
    and stores the message of what was thrown: the [message] of the error
    when it is an instance of [Error], and the fallback
    [Unknown error occurred] when it is not.  The result is left as it
    was. *)
Theorem C2_failure_message
        (R : Runtime) (w w' : World) (n : nat) (o : FetchOutcome) (e : Thrown) :
  transport_or_parse_failure o e ->
  step R (Settle n o) w = Some w' ->
  status w' = error
  /\ errorMsg w' = match e with
                   | Err m => m
                   | NotAnError => "Unknown error occurred"
                   end
  /\ result w' = result w.
Proof.
  intros F S.
  assert (A : attempt R o = Throw e).
  { destruct F as [-> | (res & -> & K & J)]; [reflexivity|].
    now rewrite attempt_ok. }
  destruct (settle_throw R n o e w w' A S) as (H1 & H2 & H3 & _).
  split; [exact H1|]. split; [|exact H3].
  rewrite H2. destruct e; reflexivity.
Qed.

(** C2 at a request rejected with something that is not an [Error]: the
    fallback message is stored. *)
Lemma C2_failure_message_witness :
  exists w w',
    run Example.browser [Input "https://youtube.com/watch?v=abc"; Submit]
        initial = Some w
    /\ step Example.browser (Settle 0 (Rejected NotAnError)) w = Some w'
    /\ status w' = error
    /\ errorMsg w' = "Unknown error occurred".
Proof.
  eexists. eexists. split; [reflexivity|].
  assert (S : step Example.browser (Settle 0 (Rejected NotAnError))
                   (exec (handleDownload Example.browser)
                         (exec (setUrl "https://youtube.com/watch?v=abc")
                               initial))
              = Some (exec (resume Example.browser (Rejected NotAnError))
                           (with_inflight []
                              (exec (handleDownload Example.browser)
                                 (exec (setUrl "https://youtube.com/watch?v=abc")
                                       initial))))) by reflexivity.
  split; [exact S|].
  destruct (C2_failure_message Example.browser _ _ 0 (Rejected NotAnError)
              NotAnError (or_introl eq_refl) S) as (H1 & H2 & _).
  split; [exact H1 | exact H2].
Defined.

(** C2 as stated fails: a network failure rejects the promise of [fetch]
    with a [TypeError], and a body that does not parse rejects [json()] with
    a [SyntaxError]; both are instances of [Error], and what is stored is
    their own message, not the fallback. *)
Lemma C2_counterexample :
  exists w w1 w2,
    run Example.browser [Input "https://youtube.com/watch?v=abc"; Submit]
        initial = Some w
    /\ step Example.browser (Settle 0 (Rejected (Err "Failed to fetch"))) w
       = Some w1
    /\ status w1 = error
    /\ errorMsg w1 = "Failed to fetch"
    /\ errorMsg w1 <> unknown_error_message
    /\ step Example.browser
            (Settle 0 (Fulfilled
                         {| Response.status := 200;
                            Response.json :=
                              Throw (Err "Unexpected end of JSON input") |}))
            w
       = Some w2
    /\ status w2 = error
    /\ errorMsg w2 = "Unexpected end of JSON input"
    /\ errorMsg w2 <> unknown_error_message.
Proof.
  eexists. eexists. eexists.
  split; [vm_compute; reflexivity|].
  split; [vm_compute; reflexivity|].
  split; [reflexivity|]. split; [reflexivity|]. split; [discriminate|].
  split; [vm_compute; reflexivity|].
  split; [reflexivity|]. split; [reflexivity | discriminate].
Qed.

(** ** The success path *)

(** C6, as the code has it.  On a reachable page that is not loading, with
    a text the guard accepts: Submit takes the page to [loading] with exactly
    the download request in flight; when that request settles with a 2xx
    response whose body parses, the parsed value is stored as the result,
    unchanged, and the success panel is built for it.  The page ends in
    [success] unless building the panel throws, and then it ends in [error]
    with the message of what was thrown.  When the value carries the strings
    [download_url] and [filename] nothing throws: the page ends in
    [success] and shows a link whose address is the API base followed by
    [download_url] and whose suggested name is [filename]. *)
Theorem C6_success_path
        (R : Runtime) (w : World) (u : URL) (res : Response.t) (data : JSON) :
  reachable R w ->
  status w <> loading ->
  Str.trim (url w) <> EmptyString ->
  new_URL R (Str.trim (url w)) = Some u ->
  protocol u = "http:" \/ protocol u = "https:" ->
  Response.ok res = true ->
  Response.json res = Normal data ->
  exists w1 w2,
    step R Submit w = Some w1
    /\ status w1 = loading
    /\ inflight w1 = [download_request R (Str.trim (url w))]
    /\ step R (Settle 0 (Fulfilled res)) w1 = Some w2
    /\ result w2 = data
    /\ (render_failure R data = None ->
        status w2 = success /\ errorMsg w2 = EmptyString)
    /\ (forall err,
           render_failure R data = Some err ->
           status w2 = error /\ errorMsg w2 = caught_message err)
    /\ (forall d f,
           Json.own data "download_url" = Some (JStr d) ->
           Json.own data "filename" = Some (JStr f) ->
           status w2 = success
           /\ download_link R w2
              = Some (Normal {| href := API_BASE R ++ d;
                                download := Some f |})).
Proof.
  intros H L N P S K J.
  pose proof (consistent_inflight w (reachable_consistent R w H) L) as I.
  assert (D : submit_disabled w = false).
  { unfold submit_disabled, isLoading. destruct (status w); simpl; congruence. }
  assert (A : attempt R (Fulfilled res) = Normal data).
  { now rewrite attempt_ok. }
  eexists. eexists.
  split. { simpl. rewrite D. reflexivity. }
  unfold exec at 1 2 3. rewrite (handleDownload_accepted R w u N P S), I.
  cbn [snd status inflight app].
  split; [reflexivity|]. split; [reflexivity|].
  split. { cbn [step take_out with_inflight]. reflexivity. }
  match goal with
  | |- result (exec (resume R ?o) ?w1) = _ /\ _ =>
      destruct (resume_outcome R o w1)
        as [(data' & A' & F & E) | [(data' & err & A' & F & E)
           | (err & A' & _)]];
        [| | congruence];
        rewrite E; cbn [status result errorMsg];
        assert (data' = data) as -> by congruence
  end.
  - split; [reflexivity|]. split; [auto|].
    split; [intros err F'; congruence|].
    intros d f Hd Hf. split; [reflexivity|].
    destruct (render_plain R data d (Some f) (or_introl Hd) Hf) as (Rp & _).
    unfold download_link, success_shown. cbn [status result AppStatus_eqb andb].
    destruct data; simpl in Hd; try discriminate. simpl. now rewrite Rp.
  - split; [reflexivity|]. split; [intro F'; congruence|].
    split. { intros err' F'. assert (err' = err) as -> by congruence. auto. }
    intros d f Hd Hf.
    destruct (render_plain R data d (Some f) (or_introl Hd) Hf) as (_ & Rf).
    congruence.
Qed.

(** C6 at the fresh page with [https://youtube.com/watch?v=abc] typed and a
    200 response carrying [video.mp4]. *)
Lemma C6_success_path_witness :
  exists w1 w2,
    step Example.browser Submit
         (exec (setUrl "https://youtube.com/watch?v=abc") initial) = Some w1
    /\ status w1 = loading
    /\ step Example.browser
            (Settle 0 (Fulfilled {| Response.status := 200;
                                    Response.json := Normal Example.video |}))
            w1 = Some w2
    /\ status w2 = success
    /\ result w2 = Example.video
    /\ download_link Example.browser w2
       = Some (Normal {| href := "http://localhost:8000/files/video.mp4";
                         download := Some "video.mp4" |}).
Proof.
  destruct (C6_success_path Example.browser
              (exec (setUrl "https://youtube.com/watch?v=abc") initial)
              {| protocol := "https:" |}
              {| Response.status := 200;
                 Response.json := Normal Example.video |}
              Example.video)
    as (w1 & w2 & S1 & L1 & _ & S2 & Rs & _ & _ & Lk).
  - exists [Input "https://youtube.com/watch?v=abc"]. reflexivity.
  - simpl. discriminate.
  - vm_compute. discriminate.
  - reflexivity.
  - right. reflexivity.
  - reflexivity.
  - reflexivity.
  - exists w1, w2.
    destruct (Lk "/files/video.mp4" "video.mp4" eq_refl eq_refl) as (L2 & Lk').
    repeat (split; [assumption|]). exact Lk'.
Defined.

(** C6 as stated fails, in two ways.  The body [null] parses as JSON; the
    page goes to [success], the stored result is [null], and the success
    panel with the link is not shown.  And a body whose [download_url] is an
    object with a member [toString] parses as JSON; building the link for
    it throws, and the page ends in [error] with the payload stored. *)
Lemma C6_counterexample :
  (exists w,
      run Example.browser
          [Input "https://youtube.com/watch?v=abc"; Submit;
           Settle 0 (Fulfilled {| Response.status := 200;
                                  Response.json := Normal JNull |})]
          initial = Some w
      /\ status w = success
      /\ result w = JNull
      /\ download_link Example.browser w = None)
  /\ (let payload := JObj [("download_url", JObj [("toString", JNum "1")]);
                           ("filename", JStr "a.mp4")] in
      exists w,
        run Example.browser
            [Input "https://youtube.com/watch?v=abc"; Submit;
             Settle 0 (Fulfilled {| Response.status := 200;
                                    Response.json := Normal payload |})]
            initial = Some w
        /\ status w = error
        /\ status w <> success
        /\ errorMsg w = "Cannot convert object to primitive value"
        /\ result w = payload
        /\ download_link Example.browser w = None).
Proof.
  split.
  - eexists. split; [vm_compute; reflexivity|]. repeat split.
  - intro payload. eexists. split; [vm_compute; reflexivity|].
    repeat split. discriminate.
Qed.

(** ** Responses outside the 2xx range *)

(** C7, as the code has it.  When the request settles with a response
    outside the 2xx range, the page goes to [error].  The stored message is
    the [detail] of the body when the body parses and its [detail] is a
    string; it is [Server error] followed by the status when the body does
    not parse, or parses to a value other than [null] that has no [detail]
    or a [null] one; a [detail] of another kind is stored as the string it
    converts to. *)
Theorem C7_server_error
        (R : Runtime) (w w' : World) (n : nat) (res : Response.t) :
  Response.ok res = false ->
  step R (Settle n (Fulfilled res)) w = Some w' ->
  status w' = error
  /\ (forall body d,
         Response.json res = Normal body ->
         Json.own body "detail" = Some (JStr d) ->
         errorMsg w' = d)
  /\ (forall e,
         Response.json res = Throw e ->
         errorMsg w' = "Server error " ++ Str.decimal (Response.status res))
  /\ (forall body,
         Response.json res = Normal body -> body <> JNull ->
         Json.own body "detail" = None \/ Json.own body "detail" = Some JNull ->
         errorMsg w' = "Server error " ++ Str.decimal (Response.status res))
  /\ (forall body d m,
         Response.json res = Normal body ->
         Json.own body "detail" = Some d -> d <> JNull ->
         Json.ToString R d = Normal m ->
         errorMsg w' = m).
Proof.
  intros K S.
  destruct (attempt_not_ok_throws R res K) as (err & A).
  destruct (settle_throw R n _ err w w' A S) as (H1 & H2 & _).
  split; [exact H1|]. rewrite H2.
  split; [|split; [|split]].
  - intros body d J D.
    rewrite (attempt_detail R res body (JStr d) d K J D) in A;
      [|discriminate | reflexivity].
    now injection A as <-.
  - intros e J. rewrite (attempt_unparsed R res e K J) in A.
    now injection A as <-.
  - intros body J N D. rewrite (attempt_no_detail R res body K J N D) in A.
    now injection A as <-.
  - intros body d m J D N T.
    rewrite (attempt_detail R res body d m K J D N T) in A.
    now injection A as <-.
Qed.

(** C7 at a 422 response with the detail [unsupported URL] and at a 500
    response whose body does not parse. *)
Lemma C7_server_error_witness :
  exists w w1 w2,
    run Example.browser [Input "https://youtube.com/watch?v=abc"; Submit]
        initial = Some w
    /\ step Example.browser
            (Settle 0 (Fulfilled
                         {| Response.status := 422;
                            Response.json :=
                              Normal (JObj [("detail",
                                             JStr "unsupported URL")]) |}))
            w = Some w1
    /\ status w1 = error /\ errorMsg w1 = "unsupported URL"
    /\ step Example.browser
            (Settle 0 (Fulfilled
                         {| Response.status := 500;
                            Response.json :=
                              Throw (Err "Unexpected token") |}))
            w = Some w2
    /\ status w2 = error /\ errorMsg w2 = "Server error 500".
Proof.
  eexists. eexists. eexists.
  split; [reflexivity|].
  match goal with
  | |- step ?R (Settle ?n (Fulfilled ?r)) ?w = Some ?w1 /\ _ =>
      assert (S1 : step R (Settle n (Fulfilled r)) w
                   = Some (exec (resume R (Fulfilled r)) (with_inflight [] w)))
        by reflexivity;
      destruct (C7_server_error R w _ n r eq_refl S1) as (A1 & B1 & _)
  end.
  split; [exact S1|]. split; [exact A1|].
  split; [apply (B1 _ "unsupported URL" eq_refl eq_refl)|].
  match goal with
  | |- step ?R (Settle ?n (Fulfilled ?r)) ?w = Some ?w2 /\ _ =>
      assert (S2 : step R (Settle n (Fulfilled r)) w
                   = Some (exec (resume R (Fulfilled r)) (with_inflight [] w)))
        by reflexivity;
      destruct (C7_server_error R w _ n r eq_refl S2) as (A2 & _ & B2 & _)
  end.
  split; [exact S2|]. split; [exact A2|].
  exact (B2 _ eq_refl).
Defined.

(** C7 as stated fails: a body whose [detail] is not a string.  The list of
    field errors of a 422 response is stored as [[object Object]], and a
    [null] detail gives the server-error message; neither is the detail. *)
Lemma C7_counterexample :
  let items := JArr [JObj [("msg", JStr "field required")]] in
  exists w w1 w2,
    run Example.browser [Input "https://youtube.com/watch?v=abc"; Submit]
        initial = Some w
    /\ Json.own (JObj [("detail", items)]) "detail" = Some items
    /\ step Example.browser
            (Settle 0 (Fulfilled
                         {| Response.status := 422;
                            Response.json :=
                              Normal (JObj [("detail", items)]) |}))
            w = Some w1
    /\ errorMsg w1 = "[object Object]"
    /\ JStr (errorMsg w1) <> items
    /\ Json.own (JObj [("detail", JNull)]) "detail" = Some JNull
    /\ step Example.browser
            (Settle 0 (Fulfilled
                         {| Response.status := 422;
                            Response.json :=
                              Normal (JObj [("detail", JNull)]) |}))
            w = Some w2
    /\ errorMsg w2 = "Server error 422"
    /\ JStr (errorMsg w2) <> JNull.
Proof.
  intro items. eexists. eexists. eexists.
  split; [vm_compute; reflexivity|].
  split; [reflexivity|].
  split; [vm_compute; reflexivity|].
  split; [reflexivity|]. split; [discriminate|].
  split; [reflexivity|].
  split; [vm_compute; reflexivity|].
  split; [reflexivity | discriminate].
Qed.

(** A body that is the JSON value [null]: reading its [detail] throws, and
    the message of that [TypeError] is what the page stores. *)
Example null_body_stores_type_error :
  errorMsg (exec (resume Example.browser
                    (Fulfilled {| Response.status := 500;
                                  Response.json := Normal JNull |}))
                 initial)
  = "Cannot read properties of null (reading 'detail')".
Proof.
  reflexivity.
Qed.

(** ** Detection is substring matching *)

(** C10, as the code has it.  Detection looks for the signature texts
    anywhere in the input, in any letter case, and the first listed platform
    that has one wins: a text that mentions YouTube is classified YouTube; a
    text that mentions Instagram, TikTok or Facebook is classified so when
    it mentions no platform listed earlier; and a text that mentions any of
    them is classified as one of the four.  None of this consults the URL
    parser: a text on which [new URL] throws keeps its classification while
    submitting it is rejected with the status [error] and no request. *)
Theorem C10_detection_by_substring (s : string) :
  (mentions_YouTube s -> detectPlatform s = Some "YouTube")
  /\ (mentions_Instagram s -> ~ mentions_YouTube s ->
      detectPlatform s = Some "Instagram")
  /\ (mentions_TikTok s -> ~ mentions_YouTube s -> ~ mentions_Instagram s ->
      detectPlatform s = Some "TikTok")
  /\ (mentions_Facebook s -> ~ mentions_YouTube s -> ~ mentions_Instagram s ->
      ~ mentions_TikTok s ->
      detectPlatform s = Some "Facebook")
  /\ (mentions_YouTube s \/ mentions_Instagram s \/ mentions_TikTok s
      \/ mentions_Facebook s ->
      exists n, detectPlatform s = Some n
                /\ In n ["YouTube"; "Instagram"; "TikTok"; "Facebook"])
  /\ (forall R w,
         url w = s -> s <> EmptyString ->
         platform w = detectPlatform s
         /\ (Str.trim s <> EmptyString -> new_URL R (Str.trim s) = None ->
             status (exec (handleDownload R) w) = error
             /\ inflight (exec (handleDownload R) w) = inflight w
             /\ platform (exec (handleDownload R) w) = detectPlatform s)).
Proof.
  pose proof (test_YouTube s) as Y.
  pose proof (test_lit "instagram.com" s) as I.
  pose proof (test_lit "tiktok.com" s) as T.
  pose proof (test_Facebook s) as F.
  fold (mentions_Instagram s) in I. fold (mentions_TikTok s) in T.
  split; [|split; [|split; [|split; [|split]]]].
  - intro M. rewrite detectPlatform_unfold.
    apply Y in M. now rewrite M.
  - intros M NY. rewrite detectPlatform_unfold.
    rewrite (test_absent _ _ _ Y NY). apply I in M. now rewrite M.
  - intros M NY NI. rewrite detectPlatform_unfold.
    rewrite (test_absent _ _ _ Y NY), (test_absent _ _ _ I NI).
    apply T in M. now rewrite M.
  - intros M NY NI NT. rewrite detectPlatform_unfold.
    rewrite (test_absent _ _ _ Y NY), (test_absent _ _ _ I NI),
      (test_absent _ _ _ T NT).
    apply F in M. now rewrite M.
  - intro M. rewrite detectPlatform_unfold.
    destruct (Regex.test (Regex.Alt (Regex.lit "youtube.com") _) s);
      [eexists; split; [reflexivity | simpl; auto]|].
    destruct (Regex.test (Regex.lit "instagram.com") s);
      [eexists; split; [reflexivity | simpl; auto]|].
    destruct (Regex.test (Regex.lit "tiktok.com") s);
      [eexists; split; [reflexivity | simpl; auto]|].
    destruct (Regex.test (Regex.Alt (Regex.lit "facebook.com") _) s);
      [eexists; split; [reflexivity | simpl; auto]|].
    exfalso. destruct M as [M | [M | [M | M]]];
      [apply Y in M | apply I in M | apply T in M | apply F in M];
      discriminate.
  - intros R w U N.
    assert (P : forall w', url w' = s -> platform w' = detectPlatform s).
    { intros w' U'. unfold platform. rewrite U'.
      destruct s; [congruence | reflexivity]. }
    split; [apply P, U|].
    intros B E. subst s. unfold exec.
    rewrite (handleDownload_unparsed R w B E). simpl.
    repeat split. apply P. reflexivity.
Qed.

(** C10 at [WWW.YouTube.COM/watch]: no scheme, so the URL constructor
    throws on it, and yet it is classified YouTube. *)
Lemma C10_detection_by_substring_witness :
  mentions_YouTube "WWW.YouTube.COM/watch"
  /\ new_URL Example.browser (Str.trim "WWW.YouTube.COM/watch") = None
  /\ detectPlatform "WWW.YouTube.COM/watch" = Some "YouTube"
  /\ status (exec (handleDownload Example.browser)
                  (exec (setUrl "WWW.YouTube.COM/watch") initial)) = error.
Proof.
  assert (M : mentions_YouTube "WWW.YouTube.COM/watch").
  { left. exists "WWW.", "YouTube.COM", "/watch". split; reflexivity. }
  destruct (C10_detection_by_substring "WWW.YouTube.COM/watch")
    as (Y & _ & _ & _ & _ & G).
  split; [exact M|]. split; [reflexivity|]. split; [exact (Y M)|].
  destruct (G Example.browser (exec (setUrl "WWW.YouTube.COM/watch") initial))
    as (_ & K); [reflexivity | discriminate |].
  apply K; [vm_compute; discriminate | reflexivity].
Defined.

(** C10 as stated fails: a TikTok share link that carries a YouTube address.
    It contains [tiktok.com], and it is classified YouTube, the entry listed
    first. *)
Lemma C10_counterexample :
  mentions_TikTok "https://www.tiktok.com/share?u=https://youtu.be/abc"
  /\ detectPlatform "https://www.tiktok.com/share?u=https://youtu.be/abc"
     = Some "YouTube"
  /\ detectPlatform "https://www.tiktok.com/share?u=https://youtu.be/abc"
     <> Some "TikTok".
Proof.
  split.
  - exists "https://www.", "tiktok.com", "/share?u=https://youtu.be/abc".
    split; reflexivity.
  - split; [vm_compute; reflexivity | vm_compute; discriminate].
Qed.

(** * Further properties of the code *)

(** ** Detection, characterised *)

Lemma upper_append (a b : string) :
  Str.upper (a ++ b) = Str.upper a ++ Str.upper b.
Proof.
  induction a as [|x a IH]; simpl; [reflexivity | now rewrite IH].
Qed.

Lemma canonicalize_idempotent (c : ascii) :
  Str.canonicalize (Str.canonicalize c) = Str.canonicalize c.
Proof.
  destruct c as [[] [] [] [] [] [] [] []]; reflexivity.
Qed.

Lemma upper_idempotent (s : string) : Str.upper (Str.upper s) = Str.upper s.
Proof.
  induction s as [|c s IH]; simpl;
    [reflexivity | now rewrite canonicalize_idempotent, IH].
Qed.

(** The catch-all matches nothing but texts that start with [http://] or
    [https://]. *)
Lemma generic_pattern_only (s : string) :
  Regex.test
    (Regex.Seq Regex.Bol
       (Regex.Seq (Regex.lit "http")
          (Regex.Seq (Regex.Opt (Regex.Chr "s"%char)) (Regex.lit "://")))) s
  = true ->
  starts_http s.
Proof.
  unfold Regex.test. rewrite search_spec.
  intros (pre & rest & -> & H). unfold Regex.matches_here in H.
  destruct pre as [|p pre]; cbn [Regex.matcher Str.truthy] in H;
    [|discriminate].
  apply matcher_lit in H. destruct H as (mid & post & -> & Hu & HK).
  cbn [Regex.matcher Str.truthy] in HK. apply orb_true_iff in HK.
  cbn [append]. destruct HK as [HK | HK].
  - right. destruct post as [|a post]; [discriminate|].
    destruct (Ascii.eqb (Str.canonicalize a) (Str.canonicalize "s")) eqn:Ea;
      [|discriminate].
    apply Ascii.eqb_eq in Ea. apply matcher_lit in HK.
    destruct HK as (mid2 & post2 & -> & Hu2 & _).
    exists (mid ++ String a mid2), post2. split.
    + rewrite append_assoc_s. reflexivity.
    + rewrite upper_append. simpl. rewrite Hu, Ea, Hu2. reflexivity.
  - left. apply matcher_lit in HK.
    destruct HK as (mid2 & post2 & -> & Hu2 & _).
    exists (mid ++ mid2), post2. split.
    + rewrite append_assoc_s. reflexivity.
    + rewrite upper_append, Hu, Hu2. reflexivity.
Qed.

Lemma test_Generic (s : string) :
  Regex.test
    (Regex.Seq Regex.Bol
       (Regex.Seq (Regex.lit "http")
          (Regex.Seq (Regex.Opt (Regex.Chr "s"%char)) (Regex.lit "://")))) s
  = true <-> starts_http s.
Proof.
  split; [apply generic_pattern_only | apply generic_pattern_matches].
Qed.

Lemma test_decides (r : Regex.t) (s : string) (P : Prop) :
  (Regex.test r s = true <-> P) ->
  (Regex.test r s = true /\ P) \/ (Regex.test r s = false /\ ~ P).
Proof.
  intros H. destruct (Regex.test r s).
  - left. split; [reflexivity | now apply H].
  - right. split; [reflexivity|]. intro p. apply H in p. discriminate.
Qed.

(** The outcome of detection in words: which test decides what. *)
Lemma detectPlatform_cases (s : string) :
  (mentions_YouTube s /\ detectPlatform s = Some "YouTube")
  \/ (~ mentions_YouTube s /\ mentions_Instagram s
      /\ detectPlatform s = Some "Instagram")
  \/ (~ mentions_YouTube s /\ ~ mentions_Instagram s /\ mentions_TikTok s
      /\ detectPlatform s = Some "TikTok")
  \/ (~ mentions_YouTube s /\ ~ mentions_Instagram s /\ ~ mentions_TikTok s
      /\ mentions_Facebook s /\ detectPlatform s = Some "Facebook")
  \/ (~ mentions_specific s /\ starts_http s
      /\ detectPlatform s = Some "Generic")
  \/ (~ mentions_specific s /\ ~ starts_http s /\ detectPlatform s = None).
Proof.
  rewrite detectPlatform_unfold. unfold mentions_specific.
  destruct (test_decides _ s _ (test_YouTube s)) as [(-> & Y) | (-> & Y)];
    [tauto|].
  destruct (test_decides _ s _ (test_lit "instagram.com" s))
    as [(-> & I) | (-> & I)]; fold (mentions_Instagram s) in I; [tauto|].
  destruct (test_decides _ s _ (test_lit "tiktok.com" s))
    as [(-> & T) | (-> & T)]; fold (mentions_TikTok s) in T; [tauto|].
  destruct (test_decides _ s _ (test_Facebook s)) as [(-> & F) | (-> & F)];
    [tauto|].
  destruct (test_decides _ s _ (test_Generic s)) as [(-> & G) | (-> & G)];
    tauto.
Qed.

(** X1.  Detection gives no classification exactly for the texts that
    mention no specific platform and do not start with [http://] or
    [https://]; it gives Generic exactly for the texts that start so and
    mention none; it gives a specific platform exactly for the texts that
    mention one; and whatever it gives is a name of the table. *)
Theorem detectPlatform_characterised (s : string) :
  (detectPlatform s = None <-> ~ mentions_specific s /\ ~ starts_http s)
  /\ (detectPlatform s = Some "Generic" <->
      starts_http s /\ ~ mentions_specific s)
  /\ (mentions_specific s <->
      exists n, detectPlatform s = Some n /\ n <> "Generic")
  /\ (forall n, detectPlatform s = Some n -> In n (map name PLATFORMS)).
Proof.
  pose proof (detectPlatform_cases s) as C. unfold mentions_specific in *.
  split; [|split; [|split]].
  - split.
    + intro E. rewrite E in C.
      destruct C as [(_ & K) | [(_ & _ & K) | [(_ & _ & _ & K)
        | [(_ & _ & _ & _ & K) | [(_ & _ & K) | (A & B & _)]]]]];
        try discriminate K. auto.
    + intros (A & B).
      destruct C as [(M & _) | [(_ & M & _) | [(_ & _ & M & _)
        | [(_ & _ & _ & M & _) | [(_ & M & _) | (_ & _ & K)]]]]];
        try tauto.
  - split.
    + intro E. rewrite E in C.
      destruct C as [(_ & K) | [(_ & _ & K) | [(_ & _ & _ & K)
        | [(_ & _ & _ & _ & K) | [(A & B & _) | (_ & _ & K)]]]]];
        try discriminate K. auto.
    + intros (A & B).
      destruct C as [(M & _) | [(_ & M & _) | [(_ & _ & M & _)
        | [(_ & _ & _ & M & _) | [(_ & _ & K) | (_ & M & _)]]]]];
        try tauto.
  - split.
    + intro M.
      destruct C as [(_ & K) | [(_ & _ & K) | [(_ & _ & _ & K)
        | [(_ & _ & _ & _ & K) | [(A & _) | (A & _)]]]]];
        try tauto; rewrite K; eexists; (split; [reflexivity | discriminate]).
    + intros (n & E & N). rewrite E in C.
      destruct C as [(M & _) | [(_ & M & _) | [(_ & _ & M & _)
        | [(_ & _ & _ & M & _) | [(_ & _ & K) | (_ & _ & K)]]]]];
        try tauto; [injection K as ->; congruence | discriminate K].
  - intros n E. rewrite E in C. simpl.
    destruct C as [(_ & K) | [(_ & _ & K) | [(_ & _ & _ & K)
      | [(_ & _ & _ & _ & K) | [(_ & _ & K) | (_ & _ & K)]]]]];
      try discriminate K; injection K as ->; auto 6.
Qed.

(** X1 at [ftp://files.example.org/a.mp4]: nothing is mentioned, the start is
    not [http], and there is no classification. *)
Lemma detectPlatform_characterised_witness :
  detectPlatform "ftp://files.example.org/a.mp4" = None
  /\ ~ starts_http "ftp://files.example.org/a.mp4".
Proof.
  destruct (detectPlatform_characterised "ftp://files.example.org/a.mp4")
    as ((N & _) & _).
  split; [reflexivity|]. apply N. reflexivity.
Defined.

(** ** Detection and letter case *)

Lemma occurs_ci_same_letters (w s1 s2 : string) :
  Str.upper s1 = Str.upper s2 -> Str.occurs_ci w s1 -> Str.occurs_ci w s2.
Proof.
  intros E (pre & mid & post & -> & Hu).
  symmetry in E.
  destruct (upper_split pre (mid ++ post) s2 E) as (m1 & m2 & -> & _ & E2).
  destruct (upper_split mid post m2 E2) as (m3 & m4 & -> & E3 & _).
  exists m1, m3, m4. split; [reflexivity | congruence].
Qed.

Lemma starts_ci_same_letters (w s1 s2 : string) :
  Str.upper s1 = Str.upper s2 -> Str.starts_ci w s1 -> Str.starts_ci w s2.
Proof.
  intros E (mid & post & -> & Hu).
  symmetry in E.
  destruct (upper_split mid post s2 E) as (m1 & m2 & -> & E1 & _).
  exists m1, m2. split; [reflexivity | congruence].
Qed.

Lemma mentions_specific_same_letters (s1 s2 : string) :
  Str.upper s1 = Str.upper s2 -> mentions_specific s1 -> mentions_specific s2.
Proof.
  intros E. unfold mentions_specific, mentions_YouTube, mentions_Instagram,
    mentions_TikTok, mentions_Facebook.
  pose proof (occurs_ci_same_letters "youtube.com" _ _ E).
  pose proof (occurs_ci_same_letters "youtu.be" _ _ E).
  pose proof (occurs_ci_same_letters "instagram.com" _ _ E).
  pose proof (occurs_ci_same_letters "tiktok.com" _ _ E).
  pose proof (occurs_ci_same_letters "facebook.com" _ _ E).
  pose proof (occurs_ci_same_letters "fb.watch" _ _ E).
  tauto.
Qed.

Lemma test_same_letters (r : Regex.t) (P : string -> Prop) (s1 s2 : string) :
  (forall s, Regex.test r s = true <-> P s) ->
  (P s1 -> P s2) -> (P s2 -> P s1) ->
  Regex.test r s1 = Regex.test r s2.
Proof.
  intros H F B.
  destruct (Regex.test r s1) eqn:E1, (Regex.test r s2) eqn:E2;
    try reflexivity.
  - apply H, F, H in E1. congruence.
  - apply H, B, H in E2. congruence.
Qed.

(** X2.  Detection does not look at letter case: two texts that differ only
    in the case of ASCII letters get the same classification, and so does a
    text and its upper-cased form. *)
Theorem detectPlatform_ignores_case (s1 s2 : string) :
  Str.upper s1 = Str.upper s2 ->
  detectPlatform s1 = detectPlatform s2
  /\ detectPlatform (Str.upper s1) = detectPlatform s1.
Proof.
  assert (G : forall a b, Str.upper a = Str.upper b ->
                          detectPlatform a = detectPlatform b).
  { intros a b E. assert (E' : Str.upper b = Str.upper a) by congruence.
    rewrite !detectPlatform_unfold.
    rewrite (test_same_letters _ mentions_YouTube a b test_YouTube).
    rewrite (test_same_letters _ mentions_Instagram a b
               (test_lit "instagram.com")).
    rewrite (test_same_letters _ mentions_TikTok a b (test_lit "tiktok.com")).
    rewrite (test_same_letters _ mentions_Facebook a b test_Facebook).
    rewrite (test_same_letters _ starts_http a b test_Generic).
    reflexivity.
    all: unfold starts_http, mentions_YouTube, mentions_Instagram,
           mentions_TikTok, mentions_Facebook;
         intros [K | K] || intros K;
         eauto using occurs_ci_same_letters, starts_ci_same_letters. }
  intro E. split; [apply G, E|].
  apply G. apply upper_idempotent.
Qed.

(** X2 at two spellings of one address. *)
Lemma detectPlatform_ignores_case_witness :
  detectPlatform "HTTPS://WWW.INSTAGRAM.COM/reel/1"
  = detectPlatform "https://www.instagram.com/REEL/1".
Proof.
  apply (detectPlatform_ignores_case "HTTPS://WWW.INSTAGRAM.COM/reel/1"
           "https://www.instagram.com/REEL/1").
  reflexivity.
Defined.

(** ** Detection while typing *)

Lemma occurs_ci_inside (w pre s post : string) :
  Str.occurs_ci w s -> Str.occurs_ci w (pre ++ s ++ post).
Proof.
  intros (a & mid & b & -> & Hu).
  exists (pre ++ a), mid, (b ++ post). split; [|exact Hu].
  now rewrite !append_assoc_s.
Qed.

Lemma mentions_specific_inside (pre s post : string) :
  mentions_specific s -> mentions_specific (pre ++ s ++ post).
Proof.
  unfold mentions_specific, mentions_YouTube, mentions_Instagram,
    mentions_TikTok, mentions_Facebook.
  pose proof (occurs_ci_inside "youtube.com" pre s post).
  pose proof (occurs_ci_inside "youtu.be" pre s post).
  pose proof (occurs_ci_inside "instagram.com" pre s post).
  pose proof (occurs_ci_inside "tiktok.com" pre s post).
  pose proof (occurs_ci_inside "facebook.com" pre s post).
  pose proof (occurs_ci_inside "fb.watch" pre s post).
  tauto.
Qed.

Lemma starts_http_append (s post : string) :
  starts_http s -> starts_http (s ++ post).
Proof.
  intros [(mid & rest & -> & Hu) | (mid & rest & -> & Hu)];
    [left | right]; exists mid, (rest ++ post);
    (split; [now rewrite append_assoc_s | exact Hu]).
Qed.

(** X3.  A classification survives what is typed around it.  A text
    classified as a specific platform keeps a specific classification
    whatever is put before and after it, and stays YouTube if it was
    YouTube; a text with any classification keeps one when characters are
    added at its end. *)
Theorem detectPlatform_survives_typing (s : string) (n : string) :
  detectPlatform s = Some n ->
  (forall post, exists n', detectPlatform (s ++ post) = Some n')
  /\ (n <> "Generic" ->
      forall pre post,
        exists n', detectPlatform (pre ++ s ++ post) = Some n'
                   /\ n' <> "Generic")
  /\ (n = "YouTube" ->
      forall pre post, detectPlatform (pre ++ s ++ post) = Some "YouTube").
Proof.
  intro E.
  destruct (detectPlatform_characterised s) as (_ & Gs & Ms & _).
  assert (Sp : n <> "Generic" -> mentions_specific s).
  { intro N. apply Ms. eauto. }
  split; [|split].
  - intro post.
    destruct (detectPlatform (s ++ post)) as [n'|] eqn:E'; [eauto|].
    exfalso.
    destruct (detectPlatform_characterised (s ++ post)) as (Np & _).
    apply Np in E'. destruct E' as (A & B).
    destruct (string_dec n "Generic") as [-> | N].
    + apply B, starts_http_append, Gs, E.
    + apply A. apply (mentions_specific_inside EmptyString s post), Sp, N.
  - intros N pre post.
    destruct (detectPlatform_characterised (pre ++ s ++ post))
      as (_ & _ & Mp & _).
    apply Mp, mentions_specific_inside, Sp, N.
  - intros -> pre post.
    assert (Y : mentions_YouTube s).
    { destruct (detectPlatform_cases s) as [(M & _) | [(_ & _ & K)
        | [(_ & _ & _ & K) | [(_ & _ & _ & _ & K) | [(_ & _ & K)
        | (_ & _ & K)]]]]]; [exact M | congruence ..]. }
    assert (Y' : mentions_YouTube (pre ++ s ++ post)).
    { destruct Y as [Y | Y]; [left | right]; now apply occurs_ci_inside. }
    destruct (detectPlatform_cases (pre ++ s ++ post)) as [(_ & K) | [(N & _)
      | [(N & _) | [(N & _) | [(N & _) | (N & _)]]]]];
      [exact K | unfold mentions_specific in *; tauto ..].
Qed.

(** X3 at [youtu.be/abc] inside a longer text. *)
Lemma detectPlatform_survives_typing_witness :
  detectPlatform "youtu.be/abc" = Some "YouTube"
  /\ detectPlatform ("see https://" ++ "youtu.be/abc" ++ "?t=10 now")
     = Some "YouTube".
Proof.
  assert (E : detectPlatform "youtu.be/abc" = Some "YouTube") by reflexivity.
  split; [exact E|].
  destruct (detectPlatform_survives_typing "youtu.be/abc" "YouTube" E)
    as (_ & _ & Y).
  apply Y. reflexivity.
Defined.

(** ** Detection reads the text as typed, the guard reads it trimmed *)

Lemma white_space_is_not_h (c : ascii) :
  Str.is_white_space c = true -> Str.canonicalize c <> "H"%char.
Proof.
  destruct c as [[] [] [] [] [] [] [] []]; intro H;
    solve [ discriminate H | vm_compute; discriminate ].
Qed.

Lemma white_space_start_not_http (c : ascii) (rest : string) :
  Str.is_white_space c = true -> ~ starts_http (String c rest).
Proof.
  intros W [(mid & post & E & Hu) | (mid & post & E & Hu)];
    (destruct mid as [|a mid]; simpl in Hu; [discriminate Hu|]);
    simpl in E; injection E as -> _; injection Hu as Ha _;
    exact (white_space_is_not_h a W Ha).
Qed.

(** X4.  A text that begins with a white-space character and mentions no
    specific platform gets no classification and no chip, whatever follows;
    yet when its trimmed form passes the guard, submitting it sends the
    request and takes the page to [loading]. *)
Theorem leading_space_hides_classification
        (R : Runtime) (w : World) (c : ascii) (rest : string) :
  url w = String c rest ->
  Str.is_white_space c = true ->
  ~ mentions_specific (url w) ->
  platform w = None
  /\ chip w = None
  /\ (guard_accepts R (Str.trim (url w)) ->
      exec (handleDownload R) w =
      {| url := url w; status := loading; result := JNull;
         errorMsg := EmptyString;
         inflight := (inflight w
                        ++ [download_request R (Str.trim (url w))])%list |}).
Proof.
  intros U W M.
  assert (P : platform w = None).
  { unfold platform. rewrite U in *. simpl.
    apply detectPlatform_characterised. split; [exact M|].
    now apply white_space_start_not_http. }
  split; [exact P|]. split.
  - unfold chip. now rewrite P.
  - intros (N & u & Hu & Hp). unfold exec.
    now rewrite (handleDownload_accepted R w u N Hu Hp).
Qed.

(** X4 at [https://example.org/clip] typed after one space. *)
Lemma leading_space_hides_classification_witness :
  let w := exec (setUrl " https://example.org/clip") initial in
  platform w = None
  /\ status (exec (handleDownload Example.browser) w) = loading.
Proof.
  intro w.
  destruct (leading_space_hides_classification Example.browser w
              " "%char "https://example.org/clip") as (P & _ & S).
  - reflexivity.
  - reflexivity.
  - intro M.
    assert (E : detectPlatform (url w) = None) by reflexivity.
    destruct (detectPlatform_characterised (url w)) as ((N & _) & _).
    apply N in E. tauto.
  - split; [exact P|]. rewrite S; [reflexivity|].
    split; [vm_compute; discriminate|].
    exists {| protocol := "https:" |}. split; [reflexivity | now right].
Defined.

(** ** The chip and the tags *)

(** X5.  The chip shows exactly what [platform()] returns, and the tags
    under the form follow it: when a platform is detected exactly one tag is
    highlighted, the one that carries the chip's name; when none is
    detected, no tag is highlighted. *)
Theorem tags_follow_chip (w : World) :
  chip w = platform w
  /\ highlighted_tags w = match chip w with
                          | Some n => [n]
                          | None => []
                          end.
Proof.
  unfold chip, highlighted_tags, tag_highlighted, platform.
  destruct (Str.truthy (url w)); [|split; reflexivity].
  rewrite detectPlatform_unfold.
  repeat match goal with
         | |- context [if Regex.test ?r ?s then _ else _] =>
             destruct (Regex.test r s)
         end; split; reflexivity.
Qed.

(** ** The API base *)

Lemma strip_trailing_slash_cases (v : string) :
  (exists b, v = b ++ "/" /\ Str.strip_trailing_slash v = b)
  \/ ((forall b, v <> b ++ "/") /\ Str.strip_trailing_slash v = v).
Proof.
  induction v as [|c v IH].
  - right. split; [|reflexivity]. intros [|x b]; discriminate.
  - destruct v as [|d v].
    + simpl. destruct (Ascii.eqb c "/") eqn:E.
      * apply Ascii.eqb_eq in E. subst c. left. exists EmptyString. auto.
      * right. split; [|reflexivity].
        intros [|x b] H; simpl in H.
        -- injection H as ->. discriminate E.
        -- injection H as _ H. destruct b; discriminate H.
    + destruct IH as [(b & Eb & Sb) | (N & Sb)].
      * left. exists (String c b).
        change (Str.strip_trailing_slash (String c (String d v)))
          with (String c (Str.strip_trailing_slash (String d v))).
        rewrite Sb, Eb. auto.
      * right. split.
        -- intros [|x b] H; simpl in H; [discriminate H|].
           injection H as _ H. exact (N b H).
        -- change (Str.strip_trailing_slash (String c (String d v)))
             with (String c (Str.strip_trailing_slash (String d v))).
           now rewrite Sb.
Qed.

(** X6.  The API base is the local default when the build sets none.  When
    it sets one, a base that ends in a slash loses exactly that one slash
    and any other base is taken as it is (the empty one included), so a
    base written with or without its final slash gives the same request
    address. *)
Theorem API_BASE_drops_one_slash (R : Runtime) :
  (VITE_API_BASE R = None -> API_BASE R = "http://localhost:8000")
  /\ (forall v,
         VITE_API_BASE R = Some v ->
         (exists b, v = b ++ "/" /\ API_BASE R = b)
         \/ ((forall b, v <> b ++ "/") /\ API_BASE R = v))
  /\ (forall R' b t,
         VITE_API_BASE R = Some b -> VITE_API_BASE R' = Some (b ++ "/") ->
         (forall c, b <> c ++ "/") ->
         download_request R t = download_request R' t).
Proof.
  unfold API_BASE. split; [|split].
  - intros ->. reflexivity.
  - intros v ->. apply strip_trailing_slash_cases.
  - intros R' b t E E' N.
    unfold download_request, API_BASE. rewrite E, E'.
    destruct (strip_trailing_slash_cases b) as [(c & Ec & _) | (_ & ->)];
      [exfalso; exact (N c Ec)|].
    destruct (strip_trailing_slash_cases (b ++ "/"))
      as [(c & Ec & ->) | (N' & _)]; [|exfalso; exact (N' b eq_refl)].
    assert (c = b) as ->; [|reflexivity].
    clear - Ec. revert c Ec.
    induction b as [|x b IH]; intros [|y c] H; simpl in H;
      try reflexivity.
    + injection H as _ H. destruct c; discriminate H.
    + injection H as _ H. destruct b; discriminate H.
    + injection H as -> H. f_equal. apply IH. exact H.
Qed.

(** X6 at a base configured with a final slash. *)
Lemma API_BASE_drops_one_slash_witness :
  let R := {| VITE_API_BASE := Some "https://api.example.org/";
              new_URL := new_URL Example.browser;
              null_property_message := EmptyString;
              not_primitive_message := EmptyString;
              insert_child := insert_child Example.browser |} in
  API_BASE R = "https://api.example.org"
  /\ target (download_request R "https://youtu.be/abc")
     = "https://api.example.org/api/download".
Proof.
  intro R.
  destruct (API_BASE_drops_one_slash R) as (_ & S & _).
  destruct (S "https://api.example.org/" eq_refl)
    as [(b & Eb & Ab) | (N & _)].
  - split; reflexivity.
  - exfalso. exact (N "https://api.example.org" eq_refl).
Defined.

(** ** The page as a state machine *)

Section Machine.

Variable R : Runtime.

Lemma run_invariant (P : World -> Prop) :
  (forall e w w', P w -> step R e w = Some w' -> P w') ->
  forall es w w', P w -> run R es w = Some w' -> P w'.
Proof.
  intros HP es. induction es as [|e es IH]; intros w w' Pw H; simpl in H.
  - now injection H as <-.
  - destruct (step R e w) as [w1|] eqn:S; [|discriminate].
    apply (IH w1 w'); [|exact H]. now apply (HP e w w1).
Qed.

Lemma not_loading_enabled (w : World) :
  isLoading w = false <-> status w <> loading.
Proof.
  unfold isLoading. destruct (status w); simpl; split; congruence.
Qed.

(** The handler leaves [loading] behind only on the accepted path. *)
Lemma handleDownload_enters_loading (w : World) :
  status w <> loading ->
  status (exec (handleDownload R) w) = loading ->
  guard_accepts R (Str.trim (url w))
  /\ exec (handleDownload R) w =
     {| url := url w; status := loading; result := JNull;
        errorMsg := EmptyString;
        inflight := (inflight w
                       ++ [download_request R (Str.trim (url w))])%list |}.
Proof.
  intros L. unfold exec.
  destruct (string_dec (Str.trim (url w)) EmptyString) as [E | E].
  { rewrite handleDownload_blank by exact E. simpl. congruence. }
  destruct (new_URL R (Str.trim (url w))) as [u|] eqn:P.
  - destruct (string_dec (protocol u) "http:") as [H1 | H1].
    { intros _. rewrite (handleDownload_accepted R w u) by auto.
      split; [|reflexivity]. split; eauto. }
    destruct (string_dec (protocol u) "https:") as [H2 | H2].
    { intros _. rewrite (handleDownload_accepted R w u) by auto.
      split; [|reflexivity]. split; eauto. }
    rewrite (handleDownload_scheme R w u) by auto. discriminate.
  - rewrite handleDownload_unparsed by auto. discriminate.
Qed.

Lemma handleDownload_keeps_url (w : World) :
  url (exec (handleDownload R) w) = url w.
Proof.
  destruct (handleDownload_cases R w) as [-> | [(m & ->) | ->]]; reflexivity.
Qed.

Lemma resume_status (o : FetchOutcome) (w : World) :
  url (exec (resume R o) w) = url w
  /\ inflight (exec (resume R o) w) = inflight w
  /\ (status (exec (resume R o) w) = success
      \/ status (exec (resume R o) w) = error).
Proof.
  destruct (resume_outcome R o w)
    as [(data & _ & _ & ->) | [(data & err & _ & _ & ->) | (err & _ & ->)]];
    simpl; auto.
Qed.

(** What is in flight while loading, as an invariant of one step. *)
Lemma step_keeps_request (e : Event) (w w' : World) :
  consistent w ->
  step R e w = Some w' ->
  status w' = loading ->
  status w = loading \/
  (inflight w' = [download_request R (Str.trim (url w'))]
   /\ guard_accepts R (Str.trim (url w'))).
Proof.
  intros C S L'. destruct e as [v | | | n o]; simpl in S.
  - destruct (input_disabled w); [discriminate|]. injection S as <-.
    left. exact L'.
  - destruct (submit_disabled w) eqn:D; [discriminate|]. injection S as <-.
    apply not_loading_enabled in D.
    destruct (handleDownload_enters_loading w D L') as (G & E).
    right. rewrite handleDownload_keeps_url. rewrite E. simpl.
    rewrite (consistent_inflight w C D). auto.
  - destruct (_ || _); [|discriminate]. injection S as <-. discriminate L'.
  - destruct (take_out n (inflight w)) as [[req rest]|]; [|discriminate].
    injection S as <-.
    destruct (resume_status o (with_inflight rest w)) as (_ & _ & [K | K]);
      congruence.
Qed.

Lemma attempt_normal_iff (o : FetchOutcome) (data : JSON) :
  attempt R o = Normal data <->
  exists res, o = Fulfilled res /\ Response.ok res = true
              /\ Response.json res = Normal data.
Proof.
  split.
  - destruct o as [e | res]; [discriminate|].
    destruct (Response.ok res) eqn:K.
    + rewrite (attempt_ok R res K). eauto.
    + destruct (attempt_not_ok_throws R res K) as (err & ->). discriminate.
  - intros (res & -> & K & J). now rewrite attempt_ok.
Qed.

End Machine.

(** X7.  While the page is loading, what is in flight is one request and it
    is the one for the text in the field: a POST to the API base followed by
    [/api/download], with the JSON content type and the trimmed text as
    [url]; and that trimmed text passed the guard.  So no request ever goes
    out for a text the guard rejects. *)
Theorem inflight_is_the_guarded_request (R : Runtime) (w : World) :
  reachable R w ->
  status w = loading ->
  inflight w =
  [ {| target := API_BASE R ++ "/api/download";
       method := "POST";
       headers := [("Content-Type", "application/json")];
       body := JObj [("url", JStr (Str.trim (url w)))] |} ]
  /\ guard_accepts R (Str.trim (url w)).
Proof.
  intros (es & H) L.
  change (inflight w = [download_request R (Str.trim (url w))]
          /\ guard_accepts R (Str.trim (url w))).
  revert H L.
  cut (forall w0 w1,
          (consistent w0 /\
           (status w0 = loading ->
            inflight w0 = [download_request R (Str.trim (url w0))]
            /\ guard_accepts R (Str.trim (url w0)))) ->
          run R es w0 = Some w1 ->
          consistent w1 /\
          (status w1 = loading ->
           inflight w1 = [download_request R (Str.trim (url w1))]
           /\ guard_accepts R (Str.trim (url w1)))).
  { intros K H L. refine (proj2 (K initial w _ H) L).
    split; [apply consistent_initial | discriminate]. }
  apply (run_invariant R). intros e w0 w1 (C & I) S.
  split; [exact (step_consistent R e w0 w1 C S)|].
  intro L1. destruct (step_keeps_request R e w0 w1 C S L1) as [L0 | K];
    [|exact K].
  (* the step started in [loading]: only a settling request is taken, and it
     leaves [loading] *)
  exfalso. destruct e as [v | | | n o]; simpl in S;
    unfold input_disabled, submit_disabled, success_shown, error_shown,
      isLoading in S;
    try (rewrite L0 in S; discriminate).
  destruct (take_out n (inflight w0)) as [[req rest]|]; [|discriminate].
  injection S as <-.
  destruct (resume_status R o (with_inflight rest w0)) as (_ & _ & [K | K]);
    congruence.
Qed.

(** X7 at the page after [  https://youtu.be/abc ] was typed and
    submitted: the request carries the trimmed text. *)
Lemma inflight_is_the_guarded_request_witness :
  exists w,
    run Example.browser [Input "  https://youtu.be/abc "; Submit] initial
    = Some w
    /\ map body (inflight w) = [JObj [("url", JStr "https://youtu.be/abc")]]
    /\ map target (inflight w) = ["http://localhost:8000/api/download"].
Proof.
  eexists. split; [reflexivity|].
  match goal with
  | |- map body (inflight ?w) = _ /\ _ =>
      destruct (inflight_is_the_guarded_request Example.browser w) as (I & _)
  end.
  - exists [Input "  https://youtu.be/abc "; Submit]. reflexivity.
  - reflexivity.
  - rewrite I. split; reflexivity.
Defined.

(** X8.  How a settling request leaves [loading].  On a loading page the
    request in flight can settle with any outcome; after that step nothing
    is in flight and the text is as it was.  The status is [success]
    exactly when the promise was fulfilled with a 2xx response whose body
    parsed and the success panel was built for the parsed value without a
    throw (that value is then the result, with no error message).  In every
    other case the status is [error], and the result is absent unless the
    error was thrown while building the panel for the stored result. *)
Theorem settling_leaves_loading
        (R : Runtime) (w : World) (o : FetchOutcome) :
  reachable R w ->
  status w = loading ->
  exists w',
    step R (Settle 0 o) w = Some w'
    /\ inflight w' = []
    /\ url w' = url w
    /\ (status w' = success <->
        exists res, o = Fulfilled res /\ Response.ok res = true
                    /\ Response.json res = Normal (result w')
                    /\ render_failure R (result w') = None)
    /\ (status w' = success -> errorMsg w' = EmptyString)
    /\ (status w' <> success ->
        status w' = error
        /\ (result w' = JNull
            \/ exists err, render_failure R (result w') = Some err
                           /\ errorMsg w' = caught_message err)).
Proof.
  intros H L. pose proof (reachable_consistent R w H) as C.
  unfold consistent in C. rewrite L in C.
  destruct C as (Cr & Ce & req & Ci).
  cbn [step]. rewrite Ci. cbn [take_out].
  eexists. split; [reflexivity|].
  destruct (resume_outcome R o (with_inflight [] w))
    as [(data & A & F & ->) | [(data & err & A & F & ->) | (err & A & ->)]];
    cbn [inflight url status result errorMsg with_inflight].
  - split; [reflexivity|]. split; [reflexivity|].
    split; [|split; [intros _; exact Ce | congruence]].
    split; [|reflexivity]. intros _.
    destruct (attempt_normal_fulfilled R o data A) as (res & Eo & K & J).
    eauto.
  - split; [reflexivity|]. split; [reflexivity|].
    split; [|split; [discriminate|]].
    + split; [discriminate|]. intros (res & _ & _ & _ & F'). congruence.
    + intros _. split; [reflexivity|]. right. eauto.
  - split; [reflexivity|]. split; [reflexivity|].
    split; [|split; [discriminate|]].
    + split; [discriminate|]. intros (res & Eo & K & J & _).
      rewrite Cr in J.
      assert (A' : attempt R o = Normal JNull).
      { apply attempt_normal_iff. eauto. }
      congruence.
    + intros _. split; [reflexivity|]. left. exact Cr.
Qed.

(** X8 at a loading page whose request is answered 503 with no body. *)
Lemma settling_leaves_loading_witness :
  exists w w',
    run Example.browser [Input "https://youtu.be/abc"; Submit] initial
    = Some w
    /\ step Example.browser
            (Settle 0 (Fulfilled
                         {| Response.status := 503;
                            Response.json :=
                              Throw (Err "Unexpected end of JSON input") |}))
            w = Some w'
    /\ status w' = error /\ inflight w' = [] /\ url w' = url w.
Proof.
  eexists.
  match goal with
  | |- exists w', ?run = Some ?w /\ step ?R (Settle 0 ?o) _ = _ /\ _ =>
      destruct (settling_leaves_loading R
                  (exec (handleDownload R)
                        (exec (setUrl "https://youtu.be/abc") initial)) o)
        as (w' & S & I & U & _ & _ & E)
  end.
  - exists [Input "https://youtu.be/abc"; Submit]. reflexivity.
  - reflexivity.
  - exists w'. split; [reflexivity|]. split; [exact S|].
    assert (N : status w' <> success).
    { simpl in S. injection S as <-. discriminate. }
    destruct (E N) as (E1 & _). auto.
Defined.

(** X9.  Reset puts the page back exactly as it started.  On a reachable
    page Reset is taken precisely when a panel with its button is shown
    (the error panel, or the success panel, which needs a truthy result),
    and the state after it is the initial state; while no such panel is
    shown there is no Reset. *)
Theorem reset_restores_initial (R : Runtime) (w : World) :
  reachable R w ->
  step R Reset w =
  if success_shown w || error_shown w then Some initial else None.
Proof.
  intro H. pose proof (reachable_consistent R w H) as C.
  simpl. destruct (success_shown w || error_shown w) eqn:S; [|reflexivity].
  assert (L : status w <> loading).
  { unfold success_shown, error_shown in S. intro L. rewrite L in S.
    discriminate. }
  unfold exec, reset, bind, setUrl, setStatus, setResult, setErrorMsg. simpl.
  rewrite (consistent_inflight w C L). reflexivity.
Qed.

(** X9 at the page that got [null] with status 200: it is in [success],
    shows no panel, and takes no Reset. *)
Lemma reset_restores_initial_witness :
  exists w,
    run Example.browser
        [Input "https://youtu.be/abc"; Submit;
         Settle 0 (Fulfilled {| Response.status := 200;
                                Response.json := Normal JNull |})]
        initial = Some w
    /\ status w = success
    /\ step Example.browser Reset w = None.
Proof.
  eexists. split; [reflexivity|]. split; [reflexivity|].
  match goal with
  | |- step ?R Reset ?w = None => rewrite (reset_restores_initial R w)
  end.
  - reflexivity.
  - exists [Input "https://youtu.be/abc"; Submit;
            Settle 0 (Fulfilled {| Response.status := 200;
                                   Response.json := Normal JNull |})].
    reflexivity.
Defined.

(** X10.  The moves of the page.  Typing changes the text and nothing else,
    and is not taken while loading.  Submit is not taken while loading; it
    keeps the text as typed (untrimmed) and either changes nothing, or goes
    to [error], or goes to [loading].  Reset is taken only from [success] or
    [error] and goes to [idle].  A settling request is taken only while
    loading, keeps the text, and goes to [success] or [error]. *)
Theorem page_moves (R : Runtime) (e : Event) (w w' : World) :
  reachable R w ->
  step R e w = Some w' ->
  match e with
  | Input v =>
      status w <> loading
      /\ w' = {| url := v; status := status w; result := result w;
                 errorMsg := errorMsg w; inflight := inflight w |}
  | Submit =>
      status w <> loading /\ url w' = url w
      /\ (w' = w \/ status w' = error \/ status w' = loading)
  | Reset =>
      (status w = success \/ status w = error) /\ status w' = idle
  | Settle _ _ =>
      status w = loading /\ url w' = url w
      /\ (status w' = success \/ status w' = error)
  end.
Proof.
  intros H S. pose proof (reachable_consistent R w H) as C.
  destruct e as [v | | | n o]; simpl in S.
  - destruct (input_disabled w) eqn:D; [discriminate|]. injection S as <-.
    split; [now apply not_loading_enabled | reflexivity].
  - destruct (submit_disabled w) eqn:D; [discriminate|]. injection S as <-.
    split; [now apply not_loading_enabled|].
    split; [apply handleDownload_keeps_url|].
    destruct (handleDownload_cases R w) as [-> | [(m & ->) | ->]]; auto.
  - destruct (success_shown w || error_shown w) eqn:D; [|discriminate].
    injection S as <-. split; [|reflexivity].
    unfold success_shown, error_shown in D.
    destruct (status w); simpl in D; auto; discriminate.
  - destruct (take_out n (inflight w)) as [[req rest]|] eqn:T; [|discriminate].
    injection S as <-.
    assert (L : status w = loading).
    { destruct (status w) eqn:E; [|reflexivity| |];
        rewrite (consistent_inflight w C), take_out_nil in T; congruence. }
    split; [exact L|].
    destruct (resume_status R o (with_inflight rest w)) as (U & _ & K).
    split; [exact U | exact K].
Qed.

(** X10 at a Submit of [ftp://x] on the fresh page: the text stays and the
    status becomes [error]. *)
Lemma page_moves_witness :
  exists w',
    step Example.browser Submit (exec (setUrl " ftp://x ") initial) = Some w'
    /\ url w' = " ftp://x " /\ status w' = error.
Proof.
  eexists. split; [reflexivity|].
  match goal with
  | |- url ?w' = _ /\ _ =>
      destruct (page_moves Example.browser Submit
                  (exec (setUrl " ftp://x ") initial) w') as (_ & U & _)
  end.
  - exists [Input " ftp://x "]. reflexivity.
  - reflexivity.
  - split; [exact U | reflexivity].
Defined.

(** ** What the success panel does with an odd payload *)



(** ** The theme *)

Lemma getItem_setItem (k v : string) (st : Theme.Storage) :
  Theme.getItem k (Theme.setItem k v st) = Some v.
Proof.
  induction st as [|[k' v'] st IH]; simpl.
  - now rewrite String.eqb_refl.
  - destruct (String.eqb k k') eqn:E; simpl.
    + now rewrite String.eqb_refl.
    + now rewrite E.
Qed.

Lemma getItem_setItem_other (k k' v : string) (st : Theme.Storage) :
  k' <> k -> Theme.getItem k' (Theme.setItem k v st) = Theme.getItem k' st.
Proof.
  intro N. induction st as [|[k0 v0] st IH]; simpl.
  - apply String.eqb_neq in N. now rewrite N.
  - destruct (String.eqb k k0) eqn:E; simpl.
    + apply String.eqb_eq in E. subst k0.
      apply String.eqb_neq in N. now rewrite N.
    + destruct (String.eqb k' k0); [reflexivity | exact IH].
Qed.

Lemma contains_app (tok : string) (l1 l2 : Theme.ClassList) :
  Theme.contains tok (l1 ++ l2)%list
  = Theme.contains tok l1 || Theme.contains tok l2.
Proof.
  unfold Theme.contains. apply existsb_app.
Qed.

Lemma contains_filter (tok t : string) (l : Theme.ClassList) :
  Theme.contains t (filter (fun x => negb (String.eqb tok x)) l)
  = negb (String.eqb tok t) && Theme.contains t l.
Proof.
  induction l as [|x l IH]; simpl.
  - now rewrite andb_false_r.
  - destruct (String.eqb tok x) eqn:E; simpl.
    + rewrite IH. apply String.eqb_eq in E. subst x.
      destruct (String.eqb t tok) eqn:E2; simpl.
      * apply String.eqb_eq in E2. subst t.
        now rewrite String.eqb_refl.
      * reflexivity.
    + rewrite IH. destruct (String.eqb t x) eqn:E2; simpl.
      * apply String.eqb_eq in E2. subst x. now rewrite E.
      * reflexivity.
Qed.

(** After [toggle tok force] the token is there exactly when [force] says
    so, and every other token is where it was. *)
Lemma contains_toggle (tok : string) (force : bool) (l : Theme.ClassList) :
  Theme.contains tok (Theme.toggle tok force l) = force.
Proof.
  unfold Theme.toggle. destruct force.
  - destruct (Theme.contains tok l) eqn:E; [exact E|].
    rewrite contains_app, E. simpl. now rewrite String.eqb_refl.
  - rewrite contains_filter, String.eqb_refl. reflexivity.
Qed.

Lemma contains_toggle_other (tok t : string) (force : bool)
      (l : Theme.ClassList) :
  t <> tok ->
  Theme.contains t (Theme.toggle tok force l) = Theme.contains t l.
Proof.
  intro N. unfold Theme.toggle. destruct force.
  - destruct (Theme.contains tok l); [reflexivity|].
    rewrite contains_app. simpl. apply String.eqb_neq in N. rewrite N.
    now rewrite !orb_false_r.
  - rewrite contains_filter.
    assert (E : String.eqb tok t = false).
    { apply String.eqb_neq. congruence. }
    now rewrite E.
Qed.

(** One click: the signal flips, and the class and the stored text both say
    the new theme. *)
Lemma toggleTheme_in_step (p : Theme.Page) :
  Theme.isDark (Theme.toggleTheme p) = negb (Theme.isDark p)
  /\ Theme.contains "light" (Theme.classList (Theme.toggleTheme p))
     = Theme.isDark p
  /\ Theme.getItem "theme" (Theme.localStorage (Theme.toggleTheme p))
     = Some (Theme.theme_text (negb (Theme.isDark p))).
Proof.
  unfold Theme.toggleTheme. simpl.
  rewrite contains_toggle, getItem_setItem, negb_involutive. auto.
Qed.

Lemma clicks_last (n : nat) (p : Theme.Page) :
  Theme.clicks (S n) p = Theme.toggleTheme (Theme.clicks n p).
Proof.
  revert p. induction n as [|n IH]; intro p; [reflexivity|].
  change (Theme.clicks (S (S n)) p)
    with (Theme.clicks (S n) (Theme.toggleTheme p)).
  rewrite IH. reflexivity.
Qed.

Lemma even_after (n : nat) : Nat.even (S n) = negb (Nat.even n).
Proof.
  induction n as [|n IH]; [reflexivity|].
  change (Nat.even (S (S n))) with (Nat.even n).
  rewrite IH. now rewrite negb_involutive.
Qed.

Lemma clicks_isDark (n : nat) (p : Theme.Page) :
  Theme.isDark (Theme.clicks n p)
  = if Nat.even n then Theme.isDark p else negb (Theme.isDark p).
Proof.
  induction n as [|n IH]; [reflexivity|].
  rewrite clicks_last. destruct (toggleTheme_in_step (Theme.clicks n p))
    as (-> & _).
  rewrite IH, even_after.
  destruct (Nat.even n); simpl; [reflexivity | apply negb_involutive].
Qed.

Lemma clicks_in_step (n : nat) (p : Theme.Page) :
  0 < n ->
  Theme.contains "light" (Theme.classList (Theme.clicks n p))
  = negb (Theme.isDark (Theme.clicks n p))
  /\ Theme.getItem "theme" (Theme.localStorage (Theme.clicks n p))
     = Some (Theme.theme_text (Theme.isDark (Theme.clicks n p))).
Proof.
  destruct n as [|n]; [lia|]. intros _. rewrite clicks_last.
  destruct (toggleTheme_in_step (Theme.clicks n p)) as (-> & -> & ->).
  now rewrite negb_involutive.
Qed.

Lemma clicks_leave_the_rest (n : nat) (p : Theme.Page) :
  (forall k, k <> "theme" ->
             Theme.getItem k (Theme.localStorage (Theme.clicks n p))
             = Theme.getItem k (Theme.localStorage p))
  /\ (forall t, t <> "light" ->
                Theme.contains t (Theme.classList (Theme.clicks n p))
                = Theme.contains t (Theme.classList p)).
Proof.
  induction n as [|n (IH1 & IH2)]; [split; reflexivity|].
  rewrite clicks_last. unfold Theme.toggleTheme. simpl. split.
  - intros k N. rewrite getItem_setItem_other by exact N. now apply IH1.
  - intros t N. rewrite contains_toggle_other by exact N. now apply IH2.
Qed.

Lemma onMount_isDark (p : Theme.Page) :
  Theme.isDark (Theme.onMount p) = true <->
  Theme.getItem "theme" (Theme.localStorage p) = None
  \/ Theme.getItem "theme" (Theme.localStorage p) = Some EmptyString
  \/ Theme.getItem "theme" (Theme.localStorage p) = Some "dark".
Proof.
  unfold Theme.onMount. cbn [Theme.isDark].
  destruct (Theme.getItem "theme" (Theme.localStorage p)) as [s|];
    [|tauto].
  destruct s as [|c s]; cbn [Str.truthy]; [tauto|].
  split.
  - intro E. apply String.eqb_eq in E. rewrite E. auto.
  - intros [K | [K | K]]; try discriminate K.
    injection K as -> ->. reflexivity.
Qed.

(** X12.  Clicking the theme button [n] times leaves the dark flag as it was
    when [n] is even and flipped when [n] is odd (so two clicks undo each
    other); after at least one click the document has the class [light]
    exactly when the flag is off and the stored [theme] is the text of the
    flag; other stored keys and other classes are never touched. *)
Theorem theme_after_clicks (n : nat) (p : Theme.Page) :
  Theme.isDark (Theme.clicks n p)
  = (if Nat.even n then Theme.isDark p else negb (Theme.isDark p))
  /\ Theme.isDark (Theme.toggleTheme (Theme.toggleTheme p)) = Theme.isDark p
  /\ (0 < n ->
      Theme.contains "light" (Theme.classList (Theme.clicks n p))
      = negb (Theme.isDark (Theme.clicks n p))
      /\ Theme.getItem "theme" (Theme.localStorage (Theme.clicks n p))
         = Some (if Theme.isDark (Theme.clicks n p) then "dark" else "light"))
  /\ (forall k, k <> "theme" ->
                Theme.getItem k (Theme.localStorage (Theme.clicks n p))
                = Theme.getItem k (Theme.localStorage p))
  /\ (forall t, t <> "light" ->
                Theme.contains t (Theme.classList (Theme.clicks n p))
                = Theme.contains t (Theme.classList p)).
Proof.
  split; [apply clicks_isDark|].
  split; [exact (clicks_isDark 2 p)|].
  split; [apply clicks_in_step|].
  apply clicks_leave_the_rest.
Qed.

(** X12 at three clicks on a dark page that has other classes and keys. *)
Lemma theme_after_clicks_witness :
  let p := Theme.onMount
             (Theme.created [("lang", "en")] ["app"; "wide"]) in
  Theme.isDark (Theme.clicks 3 p) = false
  /\ Theme.classList (Theme.clicks 3 p) = ["app"; "wide"; "light"]
  /\ Theme.getItem "theme" (Theme.localStorage (Theme.clicks 3 p))
     = Some "light"
  /\ Theme.getItem "lang" (Theme.localStorage (Theme.clicks 3 p)) = Some "en".
Proof.
  intro p.
  destruct (theme_after_clicks 3 p) as (D & _ & S & K & _).
  split; [exact D|]. split; [reflexivity|].
  destruct S as (_ & S); [lia|].
  split; [exact S|]. rewrite (K "lang"); [reflexivity | discriminate].
Defined.

(** X13.  The chosen theme survives a reload.  After at least one click,
    creating and mounting the component again over the same storage, with
    any class list, gives the dark flag the last click left, and the class
    [light] is on the document exactly when that flag is off. *)
Theorem theme_survives_reload
        (n : nat) (p : Theme.Page) (cl : Theme.ClassList) :
  0 < n ->
  Theme.isDark (Theme.reload (Theme.clicks n p) cl)
  = Theme.isDark (Theme.clicks n p)
  /\ Theme.contains "light"
       (Theme.classList (Theme.reload (Theme.clicks n p) cl))
     = negb (Theme.isDark (Theme.clicks n p))
  /\ Theme.localStorage (Theme.reload (Theme.clicks n p) cl)
     = Theme.localStorage (Theme.clicks n p).
Proof.
  intro N. destruct (clicks_in_step n p N) as (_ & S).
  assert (D : Theme.isDark (Theme.reload (Theme.clicks n p) cl)
              = Theme.isDark (Theme.clicks n p)).
  { unfold Theme.reload, Theme.onMount, Theme.created. simpl. rewrite S.
    destruct (Theme.isDark (Theme.clicks n p)); reflexivity. }
  split; [exact D|]. split; [|reflexivity].
  rewrite <- D. unfold Theme.reload, Theme.onMount. simpl.
  apply contains_toggle.
Qed.

(** X13 at one click on a first visit, then a reload with a fresh class
    list. *)
Lemma theme_survives_reload_witness :
  let p := Theme.onMount (Theme.created [] []) in
  Theme.isDark p = true
  /\ Theme.isDark (Theme.reload (Theme.clicks 1 p) []) = false
  /\ Theme.classList (Theme.reload (Theme.clicks 1 p) []) = ["light"].
Proof.
  intro p.
  destruct (theme_survives_reload 1 p []) as (D & _); [lia|].
  split; [reflexivity|]. split; [rewrite D|]; reflexivity.
Defined.

(** X14.  Mounting reads the stored theme and writes nothing.  The page
    comes up dark exactly when nothing is stored under [theme], or the
    empty text, or the text [dark]; any other stored text, [light] or not,
    gives the light theme.  The class [light] is set to match, the other
    classes stay, and the storage is left as it was, so a first visit
    stores nothing until the button is clicked. *)
Theorem onMount_reads_the_stored_theme (p : Theme.Page) :
  (Theme.isDark (Theme.onMount p) = true <->
   Theme.getItem "theme" (Theme.localStorage p) = None
   \/ Theme.getItem "theme" (Theme.localStorage p) = Some EmptyString
   \/ Theme.getItem "theme" (Theme.localStorage p) = Some "dark")
  /\ Theme.contains "light" (Theme.classList (Theme.onMount p))
     = negb (Theme.isDark (Theme.onMount p))
  /\ (forall t, t <> "light" ->
                Theme.contains t (Theme.classList (Theme.onMount p))
                = Theme.contains t (Theme.classList p))
  /\ Theme.localStorage (Theme.onMount p) = Theme.localStorage p.
Proof.
  split; [apply onMount_isDark|].
  unfold Theme.onMount. simpl.
  split; [apply contains_toggle|].
  split; [|reflexivity].
  intros t N. now apply contains_toggle_other.
Qed.

(** X14 at a storage that holds [Dark], capitalised: the page comes up
    light. *)
Lemma onMount_reads_the_stored_theme_witness :
  let p := Theme.created [("theme", "Dark")] ["light"; "app"] in
  Theme.isDark (Theme.onMount p) = false
  /\ Theme.contains "app" (Theme.classList (Theme.onMount p)) = true.
Proof.
  intro p.
  destruct (onMount_reads_the_stored_theme p) as (_ & _ & K & _).
  split; [reflexivity|]. rewrite (K "app"); [reflexivity | discriminate].
Defined.
